(** * A shallow embedding of [src/bank_account.py]

    The development follows the Python class [BankAccount]: the numeric
    inputs it accepts, the part of the [decimal] module it calls
    (construction from [str], [quantize] with [ROUND_HALF_UP], [+], [-] and
    the ordering comparisons under the default context), the object store
    in which the transaction list and the transaction dictionaries live,
    and the methods of the class written in a state-and-exception monad.
    Definitions come first, lemmas and theorems afterwards. *)

From Stdlib Require Import ZArith QArith Qpower Qabs Lia.
From stdpp Require Import gmap strings list fin_maps.

Local Open Scope Z_scope.

(** ** Exceptions and results *)

(** The exceptions the class can let escape.  [ValueError] and [TypeError]
    carry their message, because the class tells its failures apart only
    by message.  [InvalidOperation] is [decimal.InvalidOperation], the
    signal the default context traps. *)
Inductive exn : Type :=
| ValueError (msg : string)
| TypeError (msg : string)
| AttributeError (msg : string)
| InvalidOperation.

Inductive result (A : Type) : Type :=
| Ok (a : A)
| Raise (e : exn).
Arguments Ok {A} a.
Arguments Raise {A} e.

(** [result] is the exception monad; [x ← r; k] is stdpp's bind. *)
#[global] Instance result_ret : MRet result := @Ok.
#[global] Instance result_bind : MBind result :=
  λ A B k r, match r with Ok a => k a | Raise e => Raise e end.

(** The error kinds of the specification, as the exceptions of the code. *)
Definition InvalidIdentifier_empty : exn :=
  ValueError "Account number cannot be empty".
Definition InvalidIdentifier_format : exn :=
  ValueError "Account number must be exactly 9 digits".
Definition NegativeInitialBalance : exn :=
  ValueError "Initial balance cannot be negative".
Definition NonNumericAmount : exn := TypeError "Amount must be numeric".
Definition NonPositiveAmount : exn := ValueError "Amount must be positive".
Definition InsufficientFunds : exn := ValueError "Insufficient funds".

(** ** The [decimal] module *)

Module Dec.

(** A [Decimal] is a sign, a coefficient and an exponent, or a special
    value.  [Fin s c e] stands for [(-1)^s * c * 10^e].  NaN payloads are
    left out; nothing in the class reads them. *)
Inductive Decimal : Type :=
| Fin (sign : bool) (coeff : N) (exp : Z)
| Inf (sign : bool)
| NaN (sign : bool) (signaling : bool).

(** The default context: [prec = 28], [rounding = ROUND_HALF_EVEN], with
    [InvalidOperation] trapped.  The exponent limits [Emin], [Emax]
    (±999999) are not modelled: [quantize] refuses every operand of 27 or
    more integer digits before they could matter, and a balance built from
    amounts below 10^26 stays far below 10^999999. *)
Definition prec : Z := 28.

(** [len(str(c))] for a coefficient [c >= 0]. *)
Fixpoint ndigits_fuel (fuel : nat) (c : Z) : Z :=
  match fuel with
  | O => 1
  | S f => if c <? 10 then 1 else 1 + ndigits_fuel f (c / 10)
  end.

Definition ndigits (c : Z) : Z := ndigits_fuel (Z.to_nat (Z.log2 c)) c.

(** [_round_half_up]: dropping the last [k >= 1] digits of [c], the
    coefficient goes up when the first dropped digit is 5 or more. *)
Definition round_half_up (c k : Z) : Z :=
  let q := c / 10 ^ k in
  if 5 <=? (c / 10 ^ (k - 1)) mod 10 then q + 1 else q.

(** [_round_half_even]: as half-up, except that an exact half next to an
    even last digit stays. *)
Definition round_half_even (c k : Z) : Z :=
  let q := c / 10 ^ k in
  if (c mod 10 ^ k =? 5 * 10 ^ (k - 1)) && Z.even q then q
  else round_half_up c k.

(** [_rescale(exp, ROUND_HALF_UP)] on the coefficient: pad with zeros when
    the exponent goes down, round half-up when it goes up. *)
Definition rescale_half_up (c : Z) (e target : Z) : Z :=
  if target <=? e then c * 10 ^ (e - target)
  else round_half_up c (target - e).

(** [_fix]: a result of more than [prec] digits is rounded half-even to
    [prec] digits; a carry into digit [prec + 1] drops one more digit. *)
Definition fix_ (s : bool) (c : Z) (e : Z) : Decimal :=
  if c <? 10 ^ prec then Fin s (Z.to_N c) e
  else
    let k := ndigits c - prec in
    let q := round_half_even c k in
    if q <? 10 ^ prec then Fin s (Z.to_N q) (e + k)
    else Fin s (Z.to_N (q / 10)) (e + k + 1).

Definition is_nan (d : Decimal) : bool :=
  match d with NaN _ _ => true | _ => false end.

Definition is_snan (d : Decimal) : bool :=
  match d with NaN _ true => true | _ => false end.

(** [_check_nans]: a signaling NaN raises, a quiet NaN is the answer. *)
Definition check_nans (a b : Decimal) : option (result Decimal) :=
  if is_snan a || is_snan b then Some (Raise InvalidOperation)
  else if is_nan a then Some (Ok a)
  else if is_nan b then Some (Ok b)
  else None.

Definition signed (s : bool) (c : Z) : Z := if s then - c else c.

(** The coefficient of [c * 10^e] written at exponent [e0 <= e]. *)
Definition aligned (c : N) (e e0 : Z) : Z := Z.of_N c * 10 ^ (e - e0).

(** [__add__] on finite operands: the exact sum at the smaller exponent,
    then [_fix].  A zero sum is negative only when both operands are. *)
Definition add_fin (s1 : bool) (c1 : N) (e1 : Z)
                   (s2 : bool) (c2 : N) (e2 : Z) : Decimal :=
  let e := Z.min e1 e2 in
  let z := signed s1 (aligned c1 e1 e) + signed s2 (aligned c2 e2 e) in
  let s := if z =? 0 then s1 && s2 else z <? 0 in
  fix_ s (Z.abs z) e.

Definition add (a b : Decimal) : result Decimal :=
  match check_nans a b with
  | Some r => r
  | None =>
      match a, b with
      | Inf s1, Inf s2 => if eqb s1 s2 then Ok a else Raise InvalidOperation
      | Inf _, _ => Ok a
      | _, Inf _ => Ok b
      | Fin s1 c1 e1, Fin s2 c2 e2 => Ok (add_fin s1 c1 e1 s2 c2 e2)
      | _, _ => Raise InvalidOperation
      end
  end.

Definition copy_negate (d : Decimal) : Decimal :=
  match d with
  | Fin s c e => Fin (negb s) c e
  | Inf s => Inf (negb s)
  | NaN s g => NaN (negb s) g
  end.

(** [__sub__]: NaNs first, then [self + other.copy_negate()]. *)
Definition sub (a b : Decimal) : result Decimal :=
  match check_nans a b with
  | Some r => r
  | None => add a (copy_negate b)
  end.

(** [_cmp] on operands that are not NaN. *)
Definition cmp (a b : Decimal) : comparison :=
  match a, b with
  | Inf s1, Inf s2 =>
      if eqb s1 s2 then Eq else if s1 then Lt else Gt
  | Inf s1, _ => if s1 then Lt else Gt
  | _, Inf s2 => if s2 then Gt else Lt
  | Fin s1 c1 e1, Fin s2 c2 e2 =>
      let e := Z.min e1 e2 in
      signed s1 (aligned c1 e1 e) ?= signed s2 (aligned c2 e2 e)
  | _, _ => Eq
  end.

(** The ordering operators signal [InvalidOperation] on any NaN. *)
Definition compare_with (test : comparison → bool) (a b : Decimal)
  : result bool :=
  if is_nan a || is_nan b then Raise InvalidOperation
  else Ok (test (cmp a b)).

Definition lt := compare_with (λ c, match c with Lt => true | _ => false end).
Definition le := compare_with (λ c, match c with Gt => false | _ => true end).
Definition gt := compare_with (λ c, match c with Gt => true | _ => false end).

(** [Decimal(n)] for a Python [int]. *)
Definition of_int (z : Z) : Decimal := Fin (z <? 0) (Z.abs_N z) 0.

(** [self.quantize(exp, rounding=ROUND_HALF_UP)].  The result carries the
    exponent of [exp]; it is refused when it would need more than [prec]
    digits. *)
Definition quantize (self exp : Decimal) : result Decimal :=
  match check_nans self exp with
  | Some r => r
  | None =>
      match self, exp with
      | Inf _, Inf _ => Ok self
      | Inf _, _ | _, Inf _ => Raise InvalidOperation
      | Fin s c e, Fin _ _ target =>
          let q := rescale_half_up (Z.of_N c) e target in
          if q <? 10 ^ prec then Ok (Fin s (Z.to_N q) target)
          else Raise InvalidOperation
      | _, _ => Raise InvalidOperation
      end
  end.

(** The exact value of a finite decimal, as a rational. *)
Definition value (d : Decimal) : option Q :=
  match d with
  | Fin s c e =>
      Some (inject_Z (signed s (Z.of_N c)) * Qpower (inject_Z 10) e)%Q
  | _ => None
  end.

End Dec.

Import Dec.

(** ** Python values *)

(** A binary [float], seen through [str]: [FNum s c e] is the float whose
    shortest round-trip representation reads [(-1)^s * c * 10^e], so that
    [str(0.001)] is [FNum false 1 (-3)] and [str(-0.0)] is
    [FNum true 0 (-1)].  Every float has such a form (not every such form
    is a float); the class looks at a float only through [str] and
    through [< 0]. *)
Inductive pyfloat : Type :=
| FNum (sign : bool) (digits : N) (exp : Z)
| FInf (sign : bool)
| FNan.

(** The instances of [(int, float, Decimal)]; [bool] is a subclass of
    [int]. *)
Inductive pynum : Type :=
| PyInt (z : Z)
| PyBool (b : bool)
| PyFloat (f : pyfloat)
| PyDecimal (d : Decimal).

Inductive pyval : Type :=
| Num (n : pynum)
| PyStr (s : string)
| PyNone.

(** [sys.get_int_max_str_digits()], 4300 unless reconfigured: [str] of a
    longer [int] raises [ValueError]. *)
Definition int_max_str_digits : Z := 4300.

(** [Decimal(str(x))].  [str(True)] is ['True'], which [Decimal] refuses
    as a conversion syntax error; [str] of a [Decimal] reads back as the
    same [Decimal]. *)
Definition Decimal_of_str (x : pynum) : result Decimal :=
  match x with
  | PyInt z =>
      if Z.abs z <? 10 ^ int_max_str_digits then Ok (of_int z)
      else Raise (ValueError "Exceeds the limit (4300 digits) for integer string conversion; use sys.set_int_max_str_digits() to increase the limit")
  | PyBool _ => Raise InvalidOperation
  | PyFloat (FNum s c e) => Ok (Fin s c e)
  | PyFloat (FInf s) => Ok (Inf s)
  | PyFloat FNan => Ok (NaN false false)
  | PyDecimal d => Ok d
  end.

(** [x < 0].  A float NaN compares false; a [Decimal] NaN signals; a value
    that is not a number cannot be compared with an [int]. *)
Definition lt_zero (x : pyval) : result bool :=
  match x with
  | Num (PyInt z) => Ok (z <? 0)
  | Num (PyBool _) => Ok false
  | Num (PyFloat (FNum s c _)) => Ok (s && negb (c =? 0)%N)
  | Num (PyFloat (FInf s)) => Ok s
  | Num (PyFloat FNan) => Ok false
  | Num (PyDecimal d) => Dec.lt d (of_int 0)
  | PyStr _ =>
      Raise (TypeError "'<' not supported between instances of 'str' and 'int'")
  | PyNone =>
      Raise (TypeError "'<' not supported between instances of 'NoneType' and 'int'")
  end.

(** A Python [str] whose characters are inspected is a list of Unicode
    code points. *)
Abbreviation pystr := (list N).

(** The code points on which [str.isdigit] holds (Unicode 14.0.0, the
    characters of Numeric_Type Digit or Decimal), as inclusive ranges. *)
Definition isdigit_ranges : list (N * N) :=
  [ (48, 57); (178, 179); (185, 185); (1632, 1641); (1776, 1785);
    (1984, 1993); (2406, 2415); (2534, 2543); (2662, 2671); (2790, 2799);
    (2918, 2927); (3046, 3055); (3174, 3183); (3302, 3311); (3430, 3439);
    (3558, 3567); (3664, 3673); (3792, 3801); (3872, 3881); (4160, 4169);
    (4240, 4249); (4969, 4977); (6112, 6121); (6160, 6169); (6470, 6479);
    (6608, 6618); (6784, 6793); (6800, 6809); (6992, 7001); (7088, 7097);
    (7232, 7241); (7248, 7257); (8304, 8304); (8308, 8313); (8320, 8329);
    (9312, 9320); (9332, 9340); (9352, 9360); (9450, 9450); (9461, 9469);
    (9471, 9471); (10102, 10110); (10112, 10120); (10122, 10130);
    (42528, 42537); (43216, 43225); (43264, 43273); (43472, 43481);
    (43504, 43513); (43600, 43609); (44016, 44025); (65296, 65305);
    (66720, 66729); (68160, 68163); (68912, 68921); (69216, 69224);
    (69714, 69722); (69734, 69743); (69872, 69881); (69942, 69951);
    (70096, 70105); (70384, 70393); (70736, 70745); (70864, 70873);
    (71248, 71257); (71360, 71369); (71472, 71481); (71904, 71913);
    (72016, 72025); (72784, 72793); (73040, 73049); (73120, 73129);
    (92768, 92777); (92864, 92873); (93008, 93017); (120782, 120831);
    (123200, 123209); (123632, 123641); (125264, 125273);
    (127232, 127242); (130032, 130041) ]%N.

Definition isdigit_char (cp : N) : bool :=
  existsb (λ r, (fst r <=? cp)%N && (cp <=? snd r)%N) isdigit_ranges.

(** [s.isdigit()]: at least one character, and all of them digits. *)
Definition isdigit (s : pystr) : bool :=
  match s with
  | [] => false
  | _ => forallb isdigit_char s
  end.

Definition is_ascii_digit (cp : N) : bool := (48 <=? cp)%N && (cp <=? 57)%N.

(** ** The object store *)

(** Lists and dictionaries are mutable objects: they live in a store and
    are held by reference.  Decimals and strings are immutable values. *)
Definition loc := positive.

Inductive dval : Type :=
| DStr (s : string)
| DDec (d : Decimal).

Inductive obj : Type :=
| OList (items : list loc)
| ODict (d : gmap string dval).

Record BankAccount : Type := mkBankAccount {
  account_number : pystr;
  _balance : Decimal;
  _transaction_history : loc
}.

Record state : Type := mkState {
  self : BankAccount;
  store : gmap loc obj
}.

(** A method is a state transformer that returns or raises; the state it
    leaves behind survives a raised exception. *)
Definition M (A : Type) : Type := state → result A * state.

#[global] Instance M_ret : MRet M := λ A a st, (Ok a, st).
#[global] Instance M_bind : MBind M :=
  λ A B k m st,
    match m st with
    | (Ok a, st') => k a st'
    | (Raise e, st') => (Raise e, st')
    end.

Definition raise {A : Type} (e : exn) : M A := λ st, (Raise e, st).

Definition lift {A : Type} (r : result A) : M A := λ st, (r, st).

Definition get_balance : M Decimal := λ st, (Ok (_balance (self st)), st).

(** The state with [self._balance] rebound to [d]. *)
Definition with_balance (st : state) (d : Decimal) : state :=
  mkState (mkBankAccount (account_number (self st)) d
             (_transaction_history (self st)))
          (store st).

Definition set_balance (d : Decimal) : M unit :=
  λ st, (Ok (), with_balance st d).

Definition get_history_ref : M loc :=
  λ st, (Ok (_transaction_history (self st)), st).

(** A new object gets an address no object has. *)
Definition alloc (o : obj) : M loc :=
  λ st,
    let l := fresh (dom (store st)) in
    (Ok l, mkState (self st) (<[l := o]> (store st))).

(** [l.append(x)] and [l.copy()] exist on list objects only.  The
    attribute [_transaction_history] always holds a list in a state the
    class has built ([wf_state] below); the other branch keeps the
    functions total. *)
Definition list_append (l x : loc) : M unit :=
  λ st,
    match store st !! l with
    | Some (OList items) =>
        (Ok (), mkState (self st) (<[l := OList (items ++ [x])]> (store st)))
    | _ => (Raise (AttributeError "object has no attribute 'append'"), st)
    end.

Definition list_copy (l : loc) : M loc :=
  λ st,
    match store st !! l with
    | Some (OList items) => alloc (OList items) st
    | _ => (Raise (AttributeError "object has no attribute 'copy'"), st)
    end.

(** What [l] denotes for an observer: the dictionaries of the list at [l],
    in order. *)
Definition read_dict (h : gmap loc obj) (l : loc)
  : option (gmap string dval) :=
  match h !! l with
  | Some (ODict d) => Some d
  | _ => None
  end.

Definition read_list (h : gmap loc obj) (l : loc)
  : list (gmap string dval) :=
  match h !! l with
  | Some (OList items) => omap (read_dict h) items
  | _ => []
  end.

(** The transaction log of the account, as an observer reads it. *)
Definition history (st : state) : list (gmap string dval) :=
  read_list (store st) (_transaction_history (self st)).

(** The shape every state built by the class has: the history attribute
    refers to a list object, and every item of it to a dictionary. *)
Definition wf_state (st : state) : bool :=
  match store st !! _transaction_history (self st) with
  | Some (OList items) =>
      forallb (λ i, bool_decide (is_Some (read_dict (store st) i))) items
  | _ => false
  end.

(** ** The class [BankAccount] *)

Definition ACCOUNT_NUMBER_LENGTH : nat := 9.

(** [Decimal(CURRENCY_PRECISION)], that is [Decimal('0.01')]. *)
Definition CURRENCY_PRECISION : Decimal := Fin false 1 (-2).

(** [BankAccount(account_number, initial_balance)], run in a store [h]
    that may hold other objects.  The last branch of the inner match is
    never taken: [initial_balance < 0] has raised before. *)
Definition __init__ (account_number : pystr) (initial_balance : pyval)
    (h : gmap loc obj) : result state :=
  if bool_decide (account_number = []) then Raise InvalidIdentifier_empty
  else if negb (isdigit account_number)
          || negb (bool_decide (length account_number = ACCOUNT_NUMBER_LENGTH))
  then Raise InvalidIdentifier_format
  else
    negative ← lt_zero initial_balance;
    if (negative : bool) then Raise NegativeInitialBalance
    else
      match initial_balance with
      | Num n =>
          d ← Decimal_of_str n;
          balance ← quantize d CURRENCY_PRECISION;
          let l := fresh (dom h) in
          Ok (mkState (mkBankAccount account_number balance l)
                      (<[l := OList []]> h))
      | _ => Raise (TypeError "not a number")
      end.

Definition _validate_amount (amount : pyval) : result Decimal :=
  match amount with
  | Num n =>
      d ← Decimal_of_str n;
      decimal_amount ← quantize d CURRENCY_PRECISION;
      nonpositive ← Dec.le decimal_amount (of_int 0);
      if (nonpositive : bool) then Raise NonPositiveAmount
      else Ok decimal_amount
  | _ => Raise NonNumericAmount
  end.

(** [now] is what [datetime.now().isoformat()] returns during the call. *)
Definition _record_transaction (transaction_type : string)
    (amount : Decimal) (now : string) : M unit :=
  transaction ← alloc (ODict {[ "type" := DStr transaction_type;
                                "amount" := DDec amount;
                                "timestamp" := DStr now ]});
  log ← get_history_ref;
  list_append log transaction.

Definition deposit (amount : pyval) (now : string) : M bool :=
  decimal_amount ← lift (_validate_amount amount);
  balance ← get_balance;
  balance' ← lift (Dec.add balance decimal_amount);
  set_balance balance';;
  _record_transaction "deposit" decimal_amount now;;
  mret true.

Definition withdraw (amount : pyval) (now : string) : M bool :=
  decimal_amount ← lift (_validate_amount amount);
  balance ← get_balance;
  insufficient ← lift (Dec.gt decimal_amount balance);
  if (insufficient : bool) then raise InsufficientFunds
  else
    balance' ← lift (Dec.sub balance decimal_amount);
    set_balance balance';;
    _record_transaction "withdrawal" decimal_amount now;;
    mret true.

Definition balance : M Decimal := get_balance.

Definition get_transaction_history : M loc :=
  log ← get_history_ref;
  list_copy log.

(** ** Sequences of calls *)

(** A caller's mutating call, with the clock reading during it. *)
Inductive call : Type :=
| Deposit (amount : pyval) (now : string)
| Withdraw (amount : pyval) (now : string).

Definition perform (c : call) : M bool :=
  match c with
  | Deposit amount now => deposit amount now
  | Withdraw amount now => withdraw amount now
  end.

(** The account after a call, whether it returned or raised. *)
Definition after (st : state) (c : call) : state := (perform c st).2.

Definition run (cs : list call) (st : state) : state := foldl after st cs.

Definition str_of (s : string) : pystr :=
  (λ a, Ascii.N_of_ascii a) <$> String.list_ascii_of_string s.

(** ** Vocabulary of the statements *)

#[global] Instance exn_eq_dec : EqDecision exn.
Proof. solve_decision. Defined.

Definition is_InvalidIdentifier (e : exn) : bool :=
  bool_decide (e = InvalidIdentifier_empty)
  || bool_decide (e = InvalidIdentifier_format).

(** [0 <= d] holds (and does not signal). *)
Definition nonnegative (d : Decimal) : bool :=
  match Dec.le (of_int 0) d with
  | Ok b => b
  | Raise _ => false
  end.

(** A number below zero.  No NaN is. *)
Definition is_negative (x : pynum) : bool :=
  match x with
  | PyInt z => z <? 0
  | PyBool _ => false
  | PyFloat (FNum s c _) | PyDecimal (Fin s c _) => s && negb (c =? 0)%N
  | PyFloat (FInf s) | PyDecimal (Inf s) => s
  | PyFloat FNan | PyDecimal (NaN _ _) => false
  end.

(** Round-half-up, from its definition: [r] is the integer nearest to
    [c * 10^e / 10^target], the upper one when two are equally near
    ([c >= 0]; the sign is carried separately, so that halves go away
    from zero). *)
Definition is_half_up (c e target r : Z) : Prop :=
  let up := 10 ^ Z.max 0 (e - target) in
  let down := 10 ^ Z.max 0 (target - e) in
  2 * r * down ≤ 2 * c * up + down < 2 * (r + 1) * down.

(** The number an input is, when it is an [int] or a finite [Decimal]
    ([True] is 1 and [False] is 0).  A [float] is not given one: it is
    seen through [str] only, and the digits [str] prints need not be its
    binary value. *)
Definition exact_value (n : pynum) : option Q :=
  match n with
  | PyInt z => Some (inject_Z z)
  | PyBool b => Some (inject_Z (if b then 1 else 0))
  | PyDecimal d => value d
  | PyFloat _ => None
  end.

(** The number [str] writes for an input: an [int] itself, the value of
    a finite [Decimal], and for a finite [float] the value of the digits
    of its shortest round-trip representation.  [str] of a [bool], of an
    infinity or of a NaN writes no number. *)
Definition printed_value (n : pynum) : option Q :=
  match n with
  | PyInt z => Some (inject_Z z)
  | PyBool _ => None
  | PyFloat (FNum s c e) => value (Fin s c e)
  | PyFloat _ => None
  | PyDecimal d => value d
  end.

(** Round-half-up to two places, on exact values: [cents] hundredths is
    nearest to [v], the one larger in magnitude when two are equally
    near, and has no sign that [v] does not have. *)
Definition rounds_half_up_to (v : Q) (cents : Z) : Prop :=
  (inject_Z (Z.abs cents) - (1 # 2) <= Qabs v * inject_Z 100)%Q
  ∧ (Qabs v * inject_Z 100 < inject_Z (Z.abs cents) + (1 # 2))%Q
  ∧ ((0 <= v)%Q → 0 ≤ cents)
  ∧ ((v <= 0)%Q → cents ≤ 0).

(** The amount of a transaction of kind [ty], zero for any other entry. *)
Definition amount_of (ty : string) (t : gmap string dval) : Q :=
  match t !! "type", t !! "amount" with
  | Some (DStr k), Some (DDec d) =>
      if bool_decide (k = ty) then default 0%Q (value d) else 0%Q
  | _, _ => 0%Q
  end.

Definition total (ty : string) (log : list (gmap string dval)) : Q :=
  foldr (λ t acc, (amount_of ty t + acc)%Q) 0%Q log.

(** The balance law: the balance of [st] is the balance of the freshly
    built [st0] plus the deposits minus the withdrawals of the log of
    [st], as exact rationals. *)
Definition balance_law (st0 st : state) : Prop :=
  ∃ v0 v : Q,
    value (_balance (self st0)) = Some v0
    ∧ value (_balance (self st)) = Some v
    ∧ (v == v0 + total "deposit" (history st)
               - total "withdrawal" (history st))%Q.

(** The dictionary a call records when it returns. *)
Definition transaction_of (c : call) (amount : Decimal) : gmap string dval :=
  match c with
  | Deposit _ now =>
      {[ "type" := DStr "deposit"; "amount" := DDec amount;
         "timestamp" := DStr now ]}
  | Withdraw _ now =>
      {[ "type" := DStr "withdrawal"; "amount" := DDec amount;
         "timestamp" := DStr now ]}
  end.

Definition amount_arg (c : call) : pyval :=
  match c with Deposit a _ | Withdraw a _ => a end.

(** The transactions of the calls of [cs] that return, in call order. *)
Fixpoint successful (cs : list call) (st : state)
  : list (gmap string dval) :=
  match cs with
  | [] => []
  | c :: cs' =>
      match (perform c st).1, _validate_amount (amount_arg c) with
      | Ok _, Ok d => transaction_of c d :: successful cs' (after st c)
      | _, _ => successful cs' (after st c)
      end
  end.

(** The list object at [l] holds [items], each a dictionary. *)
Definition is_log (h : gmap loc obj) (l : loc) (items : list loc) : Prop :=
  h !! l = Some (OList items)
  ∧ Forall (λ i, is_Some (read_dict h i)) items.

(** What the arithmetic of a call computes once its amount is validated:
    the new balance, or nothing when the call raises first. *)
Definition new_balance (c : call) (b d : Decimal) : result Decimal :=
  match c with
  | Deposit _ _ => Dec.add b d
  | Withdraw _ _ =>
      match Dec.gt d b with
      | Raise e => Raise e
      | Ok true => Raise InsufficientFunds
      | Ok false => Dec.sub b d
      end
  end.

(** A balance that is a finite decimal and not below zero. *)
Definition fin_nonneg (d : Decimal) : Prop :=
  ∃ s c e, d = Fin s c e ∧ (s = false ∨ c = 0%N).

(** A dictionary of the shape [_record_transaction] builds from a
    validated amount. *)
Definition is_transaction (t : gmap string dval) : Prop :=
  ∃ (ty : string) (a : N) (now : string),
    (ty = "deposit" ∨ ty = "withdrawal")
    ∧ 0 < Z.of_N a < 10 ^ prec
    ∧ t = {[ "type" := DStr ty; "amount" := DDec (Fin false a (-2));
             "timestamp" := DStr now ]}.

(** ** Two accounts in one store *)

(** The callers in [tests/test_integration.py] hold several accounts at
    once and call them in turn.  The accounts are distinct objects; their
    lists and dictionaries live in one store.  A call on one account runs
    with that account as [self] and leaves the other account object as it
    is. *)
Record accounts : Type := mkAccounts {
  first : BankAccount;
  second : BankAccount;
  objects : gmap loc obj
}.

Inductive who : Type := First | Second.

#[global] Instance who_eq_dec : EqDecision who.
Proof. solve_decision. Defined.

Definition account_of (w : who) (p : accounts) : BankAccount :=
  match w with First => first p | Second => second p end.

Definition call_on (w : who) (c : call) (p : accounts)
  : result bool * accounts :=
  let r := perform c (mkState (account_of w p) (objects p)) in
  (r.1,
   match w with
   | First => mkAccounts (self r.2) (second p) (store r.2)
   | Second => mkAccounts (first p) (self r.2) (store r.2)
   end).

(** A sequence of calls, each addressed to one of the two accounts; a
    call that raises is caught by the caller. *)
Definition run_on (ops : list (who * call)) (p : accounts) : accounts :=
  foldl (λ p op, (call_on op.1 op.2 p).2) p ops.

(** The calls of [ops] addressed to [w], in order. *)
Definition calls_to (w : who) (ops : list (who * call)) : list call :=
  omap (λ op, if decide (op.1 = w) then Some op.2 else None) ops.

(** The account [w] as a state of its own. *)
Definition view (w : who) (p : accounts) : state :=
  mkState (account_of w p) (objects p).

(** Both accounts are as the class builds them, and they do not share
    their history list. *)
Definition wf_accounts (p : accounts) : bool :=
  wf_state (view First p) && wf_state (view Second p)
  && negb (bool_decide (_transaction_history (first p)
                        = _transaction_history (second p))).

(** A transfer as the integration tests perform it:
    [source.withdraw(amount)] and then [destination.deposit(amount)],
    the second statement not being reached when the first raises. *)
Definition transfer (amount : pyval) (t1 t2 : string) (p : accounts)
  : result bool * accounts :=
  match call_on First (Withdraw amount t1) p with
  | (Raise e, p1) => (Raise e, p1)
  | (Ok _, p1) => call_on Second (Deposit amount t2) p1
  end.

(** ** Arithmetic of rounding *)

Lemma pow10_pos (k : Z) : 0 ≤ k → 0 < 10 ^ k.
Proof. intros Hk. apply Z.pow_pos_nonneg; lia. Qed.

Lemma pow10_succ (k : Z) : 1 ≤ k → 10 ^ k = 10 * 10 ^ (k - 1).
Proof.
  intros Hk. replace k with (Z.succ (k - 1)) at 1 by lia.
  rewrite Z.pow_succ_r by lia. reflexivity.
Qed.

(** Looking at the first dropped digit is rounding to the nearest
    multiple of [10^k], halves upwards. *)
Lemma round_half_up_spec (c k : Z) :
  0 ≤ c → 1 ≤ k →
  2 * round_half_up c k * 10 ^ k ≤ 2 * c + 10 ^ k
    < 2 * (round_half_up c k + 1) * 10 ^ k.
Proof.
  intros Hc Hk. unfold round_half_up.
  rewrite (pow10_succ k Hk).
  pose proof (pow10_pos (k - 1) ltac:(lia)) as Hp.
  set (p := 10 ^ (k - 1)) in *.
  replace (c / (10 * p)) with (c / p / 10)
    by (rewrite Z.div_div by lia; f_equal; lia).
  pose proof (Z.div_mod c p ltac:(lia)) as Hcp.
  pose proof (Z.mod_pos_bound c p Hp) as Hr.
  set (m := c / p) in *. set (r := c mod p) in *.
  pose proof (Z.div_mod m 10 ltac:(lia)) as Hm.
  pose proof (Z.mod_pos_bound m 10 ltac:(lia)) as Hd.
  set (q := m / 10) in *. set (d := m mod 10) in *.
  destruct (Z.leb_spec 5 d); nia.
Qed.

Lemma round_half_up_nonneg (c k : Z) : 0 ≤ c → 1 ≤ k → 0 ≤ round_half_up c k.
Proof.
  intros Hc Hk. unfold round_half_up.
  pose proof (pow10_pos k ltac:(lia)).
  pose proof (Z.div_pos c (10 ^ k) Hc ltac:(lia)).
  destruct (5 <=? _); lia.
Qed.

Lemma rescale_half_up_nonneg (c e t : Z) : 0 ≤ c → 0 ≤ rescale_half_up c e t.
Proof.
  intros Hc. unfold rescale_half_up. destruct (Z.leb_spec t e).
  - pose proof (pow10_pos (e - t) ltac:(lia)). nia.
  - apply round_half_up_nonneg; lia.
Qed.

Lemma rescale_half_up_spec (c e t : Z) :
  0 ≤ c → is_half_up c e t (rescale_half_up c e t).
Proof.
  intros Hc. unfold is_half_up, rescale_half_up.
  destruct (Z.leb_spec t e).
  - rewrite (Z.max_r 0 (e - t)), (Z.max_l 0 (t - e)) by lia.
    change (10 ^ 0) with 1. lia.
  - rewrite (Z.max_l 0 (e - t)), (Z.max_r 0 (t - e)) by lia.
    change (10 ^ 0) with 1.
    pose proof (round_half_up_spec c (t - e) Hc ltac:(lia)). lia.
Qed.

(** A zero coefficient stays zero at any scale. *)
Lemma rescale_half_up_0 (e t : Z) : rescale_half_up 0 e t = 0.
Proof.
  unfold rescale_half_up, round_half_up. destruct (t <=? e); [reflexivity|].
  rewrite !Zdiv_0_l. reflexivity.
Qed.

(** ** The decimal operations on the operands the class gives them *)

Lemma signed_pos (s : bool) (c : Z) :
  0 ≤ c → (0 < signed s c ↔ s = false ∧ 0 < c).
Proof. intros Hc. destruct s; simpl; split; intros; try lia; naive_solver. Qed.

Lemma signed_mul (s : bool) (c p : Z) : signed s (c * p) = signed s c * p.
Proof. destruct s; simpl; lia. Qed.

Lemma aligned_nonneg (c : N) (e e0 : Z) : e0 ≤ e → 0 ≤ aligned c e e0.
Proof.
  intros He. unfold aligned. pose proof (pow10_pos (e - e0) ltac:(lia)). nia.
Qed.

Lemma aligned_same (c : N) (e : Z) : aligned c e e = Z.of_N c.
Proof. unfold aligned. rewrite Z.sub_diag. change (10 ^ 0) with 1. lia. Qed.

Lemma aligned_pos (c : N) (e e0 : Z) :
  e0 ≤ e → (0 < aligned c e e0 ↔ 0 < Z.of_N c).
Proof.
  intros He. unfold aligned. pose proof (pow10_pos (e - e0) ltac:(lia)). nia.
Qed.

(** [d <= 0] for a finite [d]. *)
Lemma le_zero_fin (s : bool) (c : N) (e : Z) :
  Dec.le (Fin s c e) (of_int 0) = Ok (negb (0 <? signed s (Z.of_N c))).
Proof.
  unfold Dec.le, compare_with, cmp, of_int. simpl is_nan. simpl orb. cbv iota.
  f_equal. change (Z.abs_N 0) with 0%N. change (0 <? 0) with false.
  set (e0 := Z.min e 0).
  assert (aligned 0 0 e0 = 0) as -> by (unfold aligned; lia).
  simpl (signed false 0).
  pose proof (aligned_pos c e e0 ltac:(lia)) as Hp.
  pose proof (aligned_nonneg c e e0 ltac:(lia)) as Hn.
  destruct (Z.compare_spec (signed s (aligned c e e0)) 0) as [H|H|H];
    destruct (Z.ltb_spec 0 (signed s (Z.of_N c))) as [H'|H'];
    try reflexivity; exfalso; destruct s; simpl in *; lia.
Qed.

Lemma quantize_fin (s : bool) (c : N) (e : Z) :
  quantize (Fin s c e) CURRENCY_PRECISION =
    let q := rescale_half_up (Z.of_N c) e (-2) in
    if q <? 10 ^ prec then Ok (Fin s (Z.to_N q) (-2))
    else Raise InvalidOperation.
Proof. reflexivity. Qed.

(** What [quantize] can return: a finite decimal at two places that fits
    the precision, or the quiet NaN it was given. *)
Lemma quantize_inv (d r : Decimal) :
  quantize d CURRENCY_PRECISION = Ok r →
  (∃ s c e, d = Fin s c e
            ∧ r = Fin s (Z.to_N (rescale_half_up (Z.of_N c) e (-2))) (-2)
            ∧ rescale_half_up (Z.of_N c) e (-2) < 10 ^ prec)
  ∨ (∃ s, d = NaN s false ∧ r = d).
Proof.
  destruct d as [s c e|s|s [|]]; intros H.
  - rewrite quantize_fin in H. cbv zeta in H.
    destruct (Z.ltb_spec (rescale_half_up (Z.of_N c) e (-2)) (10 ^ prec));
      [|discriminate].
    injection H as <-. left. exists s, c, e. split; [reflexivity|]. split; [reflexivity|lia].
  - discriminate.
  - discriminate.
  - right. exists s. split; [reflexivity|]. simpl in H. by injection H.
Qed.

(** ** Amount validation *)

(** Validation of an input that converts to a finite decimal whose
    rounded coefficient fits the precision. *)
Lemma validate_fin (n : pynum) (s : bool) (c : N) (e : Z) :
  Decimal_of_str n = Ok (Fin s c e) →
  rescale_half_up (Z.of_N c) e (-2) < 10 ^ prec →
  _validate_amount (Num n) =
    if 0 <? signed s (rescale_half_up (Z.of_N c) e (-2))
    then Ok (Fin s (Z.to_N (rescale_half_up (Z.of_N c) e (-2))) (-2))
    else Raise NonPositiveAmount.
Proof.
  intros Hn Hq. unfold _validate_amount. rewrite Hn. simpl mbind.
  unfold mbind, result_bind. rewrite quantize_fin. cbv zeta.
  destruct (Z.ltb_spec (rescale_half_up (Z.of_N c) e (-2)) (10 ^ prec));
    [|lia].
  rewrite le_zero_fin.
  rewrite Z2N.id by (apply rescale_half_up_nonneg; lia).
  destruct (0 <? _); reflexivity.
Qed.

(** A validated amount is a positive finite decimal at two places, of at
    most 28 digits. *)
Lemma validate_inv (v : pyval) (d : Decimal) :
  _validate_amount v = Ok d →
  ∃ a : N, d = Fin false a (-2) ∧ 0 < Z.of_N a < 10 ^ prec.
Proof.
  destruct v as [n| |]; [|discriminate..]. unfold _validate_amount.
  destruct (Decimal_of_str n) as [d0|] eqn:Hn; [|discriminate].
  unfold mbind, result_bind.
  destruct (quantize d0 CURRENCY_PRECISION) as [r|] eqn:Hq; [|discriminate].
  apply quantize_inv in Hq as [(s & c & e & -> & -> & Hlt)|(s & -> & ->)].
  - rewrite le_zero_fin.
    pose proof (rescale_half_up_nonneg (Z.of_N c) e (-2) ltac:(lia)) as Hq.
    rewrite Z2N.id by exact Hq.
    destruct (Z.ltb_spec 0 (signed s (rescale_half_up (Z.of_N c) e (-2))))
      as [Hpos|]; [|discriminate].
    simpl. intros [= <-].
    apply signed_pos in Hpos as [-> Hpos]; [|exact Hq].
    eexists. split; [reflexivity|]. rewrite Z2N.id by exact Hq. lia.
  - discriminate.
Qed.

(** ** The store *)

Lemma wf_state_spec (st : state) :
  wf_state st = true ↔
  ∃ items, is_log (store st) (_transaction_history (self st)) items.
Proof.
  unfold wf_state, is_log. split.
  - destruct (store st !! _) as [[items|]|]; try discriminate.
    intros H. exists items. split; [reflexivity|].
    apply Forall_forall. intros i Hi.
    apply Is_true_true_2, forallb_True in H.
    rewrite Forall_forall in H. apply H in Hi. by apply bool_decide_unpack in Hi.
  - intros (items & -> & H). apply Is_true_true_1, forallb_True.
    eapply Forall_impl; [exact H|]. intros i Hi. by apply bool_decide_pack.
Qed.

Lemma read_list_log (h : gmap loc obj) (l : loc) (items : list loc) :
  h !! l = Some (OList items) → read_list h l = omap (read_dict h) items.
Proof. intros H. unfold read_list. by rewrite H. Qed.

(** Reading the items of a log does not depend on objects that are not
    dictionaries of the log. *)
Lemma omap_read_dict_agree (h h' : gmap loc obj) (items : list loc) :
  Forall (λ i, is_Some (read_dict h i)) items →
  (∀ i, is_Some (read_dict h i) → read_dict h' i = read_dict h i) →
  omap (read_dict h') items = omap (read_dict h) items
  ∧ Forall (λ i, is_Some (read_dict h' i)) items.
Proof.
  intros Hall Hagree. induction Hall as [|i items Hi _ [IH1 IH2]].
  - split; [reflexivity|constructor].
  - split.
    + csimpl. rewrite (Hagree i Hi), IH1. reflexivity.
    + constructor; [by rewrite (Hagree i Hi)|exact IH2].
Qed.

Lemma read_dict_alloc (h : gmap loc obj) (o : obj) (i : loc) :
  is_Some (read_dict h i) →
  read_dict (<[fresh (dom h) := o]> h) i = read_dict h i.
Proof.
  intros Hi. unfold read_dict in *.
  destruct (decide (fresh (dom h) = i)) as [<-|Hne].
  - pose proof (is_fresh (dom h)) as Hf. apply not_elem_of_dom in Hf.
    rewrite Hf in Hi. by destruct Hi.
  - by rewrite lookup_insert_ne.
Qed.

Lemma read_dict_set_list (h : gmap loc obj) (l : loc) (old new : list loc)
    (i : loc) :
  h !! l = Some (OList old) →
  read_dict (<[l := OList new]> h) i = read_dict h i.
Proof.
  intros Hl. unfold read_dict.
  destruct (decide (l = i)) as [<-|Hne].
  - by rewrite lookup_insert_eq, Hl.
  - by rewrite lookup_insert_ne.
Qed.

Lemma lookup_alloc_old (h : gmap loc obj) (o o' : obj) (l : loc) :
  h !! l = Some o' → <[fresh (dom h) := o]> h !! l = Some o'.
Proof.
  intros Hl. rewrite lookup_insert_ne; [exact Hl|].
  intros <-. pose proof (is_fresh (dom h)) as Hf.
  apply not_elem_of_dom in Hf. congruence.
Qed.

(** Recording a transaction in a well-formed state appends its
    dictionary to the log and changes nothing else of the account. *)
Lemma record_transaction_spec (st : state) (ty : string) (d : Decimal)
    (now : string) :
  wf_state st = true →
  ∃ st', _record_transaction ty d now st = (Ok (), st')
         ∧ self st' = self st
         ∧ wf_state st' = true
         ∧ history st' =
             history st ++ [ {[ "type" := DStr ty; "amount" := DDec d;
                                "timestamp" := DStr now ]} ].
Proof.
  intros Hwf. apply wf_state_spec in Hwf as (items & Hl & Hall).
  set (tx := ({[ "type" := DStr ty; "amount" := DDec d;
                 "timestamp" := DStr now ]} : gmap string dval)).
  set (t := fresh (dom (store st))).
  set (h1 := <[t := ODict tx]> (store st)).
  set (hl := _transaction_history (self st)) in *.
  assert (H1 : h1 !! hl = Some (OList items))
    by (apply lookup_alloc_old; exact Hl).
  exists (mkState (self st) (<[hl := OList (items ++ [t])]> h1)).
  split.
  { unfold _record_transaction, mbind, M_bind, alloc, get_history_ref,
      list_append. simpl. fold tx t h1 hl. rewrite H1. reflexivity. }
  split; [reflexivity|].
  assert (Ht : read_dict h1 t = Some tx)
    by (unfold read_dict, h1; by rewrite lookup_insert_eq).
  destruct (omap_read_dict_agree (store st)
              (<[hl := OList (items ++ [t])]> h1) items Hall) as [E1 E2].
  { intros i Hi. rewrite (read_dict_set_list _ _ items) by exact H1.
    apply read_dict_alloc. exact Hi. }
  split.
  - apply wf_state_spec. exists (items ++ [t]). split.
    + simpl. apply lookup_insert_eq.
    + simpl. apply Forall_app. split; [exact E2|].
      constructor; [|constructor].
      rewrite (read_dict_set_list _ _ items) by exact H1. by rewrite Ht.
  - unfold history. simpl. fold hl.
    rewrite (read_list_log _ _ (items ++ [t])) by apply lookup_insert_eq.
    rewrite (read_list_log _ _ items) by exact Hl.
    rewrite omap_app, E1. f_equal. simpl.
    rewrite (read_dict_set_list _ _ items) by exact H1. by rewrite Ht.
Qed.

Lemma wf_with_balance (st : state) (d : Decimal) :
  wf_state (with_balance st d) = wf_state st.
Proof. reflexivity. Qed.

Lemma history_with_balance (st : state) (d : Decimal) :
  history (with_balance st d) = history st.
Proof. reflexivity. Qed.

(** ** The methods, statement by statement *)

Lemma deposit_unfold (amount : pyval) (now : string) (st : state) :
  deposit amount now st =
    match _validate_amount amount with
    | Raise e => (Raise e, st)
    | Ok d =>
        match Dec.add (_balance (self st)) d with
        | Raise e => (Raise e, st)
        | Ok b' =>
            match _record_transaction "deposit" d now (with_balance st b') with
            | (Ok _, st') => (Ok true, st')
            | (Raise e, st') => (Raise e, st')
            end
        end
    end.
Proof.
  unfold deposit, mbind, M_bind, lift, get_balance, set_balance, mret, M_ret.
  destruct (_validate_amount amount); [|reflexivity].
  destruct (Dec.add _ _); reflexivity.
Qed.

Lemma withdraw_unfold (amount : pyval) (now : string) (st : state) :
  withdraw amount now st =
    match _validate_amount amount with
    | Raise e => (Raise e, st)
    | Ok d =>
        match Dec.gt d (_balance (self st)) with
        | Raise e => (Raise e, st)
        | Ok true => (Raise InsufficientFunds, st)
        | Ok false =>
            match Dec.sub (_balance (self st)) d with
            | Raise e => (Raise e, st)
            | Ok b' =>
                match _record_transaction "withdrawal" d now
                        (with_balance st b') with
                | (Ok _, st') => (Ok true, st')
                | (Raise e, st') => (Raise e, st')
                end
            end
        end
    end.
Proof.
  unfold withdraw, mbind, M_bind, lift, get_balance, set_balance, mret, M_ret,
    raise.
  destruct (_validate_amount amount); [|reflexivity].
  destruct (Dec.gt _ _) as [[|]|]; reflexivity.
Qed.

(** A call on a well-formed account either raises and leaves the state
    as it was, or returns [True], rebinds the balance and appends one
    transaction. *)
Lemma perform_cases (c : call) (st : state) :
  wf_state st = true →
  (∃ e, perform c st = (Raise e, st)
        ∧ (_validate_amount (amount_arg c) = Raise e
           ∨ ∃ d, _validate_amount (amount_arg c) = Ok d
                  ∧ new_balance c (_balance (self st)) d = Raise e))
  ∨ (∃ d b' st',
        _validate_amount (amount_arg c) = Ok d
        ∧ new_balance c (_balance (self st)) d = Ok b'
        ∧ perform c st = (Ok true, st')
        ∧ self st' = self (with_balance st b')
        ∧ wf_state st' = true
        ∧ history st' = history st ++ [transaction_of c d]).
Proof.
  intros Hwf. destruct c as [amount now|amount now]; simpl.
  - rewrite deposit_unfold.
    destruct (_validate_amount amount) as [d|e]; [|left; eauto].
    destruct (Dec.add _ d) as [b'|e] eqn:Hadd; [|left; eauto 6].
    destruct (record_transaction_spec (with_balance st b') "deposit" d now)
      as (st' & -> & Hself & Hwf' & Hhist); [exact Hwf|].
    right. exists d, b', st'. eauto 10.
  - rewrite withdraw_unfold.
    destruct (_validate_amount amount) as [d|e]; [|left; eauto].
    destruct (Dec.gt d _) as [[|]|e] eqn:Hgt.
    { left. exists InsufficientFunds. split; [reflexivity|].
      right. exists d. by rewrite Hgt. }
    2:{ left. exists e. split; [reflexivity|].
        right. exists d. by rewrite Hgt. }
    destruct (Dec.sub _ d) as [b'|e] eqn:Hsub.
    2:{ left. exists e. split; [reflexivity|].
        right. exists d. by rewrite Hgt. }
    destruct (record_transaction_spec (with_balance st b') "withdrawal" d now)
      as (st' & -> & Hself & Hwf' & Hhist); [exact Hwf|].
    right. exists d, b', st'. rewrite Hgt. eauto 10.
Qed.

Lemma after_wf (c : call) (st : state) :
  wf_state st = true → wf_state (after st c) = true.
Proof.
  intros Hwf. unfold after.
  destruct (perform_cases c st Hwf)
    as [(e & -> & _)|(d & b' & st' & _ & _ & -> & _ & Hwf' & _)];
    assumption.
Qed.

Lemma run_snoc (cs : list call) (c : call) (st : state) :
  run (cs ++ [c]) st = after (run cs st) c.
Proof. unfold run. apply foldl_snoc. Qed.

Lemma run_wf (cs : list call) (st : state) :
  wf_state st = true → wf_state (run cs st) = true.
Proof.
  intros Hwf. induction cs as [|c cs IH] using rev_ind; [exact Hwf|].
  rewrite run_snoc. by apply after_wf.
Qed.

(** ** Construction *)

Lemma init_inv (number : pystr) (initial_balance : pyval)
    (h : gmap loc obj) (st : state) :
  __init__ number initial_balance h = Ok st →
  isdigit number = true
  ∧ length number = ACCOUNT_NUMBER_LENGTH
  ∧ lt_zero initial_balance = Ok false
  ∧ (∃ n d, initial_balance = Num n
            ∧ Decimal_of_str n = Ok d
            ∧ quantize d CURRENCY_PRECISION = Ok (_balance (self st)))
  ∧ account_number (self st) = number
  ∧ wf_state st = true
  ∧ history st = [].
Proof.
  unfold __init__. case_bool_decide; [discriminate|].
  destruct (isdigit number); [|discriminate].
  case_bool_decide as Hlen; [|discriminate]. simpl.
  unfold mbind, result_bind.
  destruct (lt_zero initial_balance) as [[|]|]; try discriminate.
  destruct initial_balance as [n| |]; try discriminate.
  destruct (Decimal_of_str n) as [d|] eqn:Hd; [|discriminate].
  destruct (quantize d CURRENCY_PRECISION) as [b|] eqn:Hq; [|discriminate].
  intros [= <-]. simpl.
  repeat split; try done.
  - eauto.
  - unfold wf_state. simpl. by rewrite lookup_insert_eq.
  - unfold history, read_list. simpl. by rewrite lookup_insert_eq.
Qed.

(** ** Sign and precision of the balance arithmetic *)

Lemma fix_small (s : bool) (z e : Z) :
  z < 10 ^ prec → fix_ s z e = Fin s (Z.to_N z) e.
Proof.
  intros Hz. unfold fix_. destruct (Z.ltb_spec z (10 ^ prec)); [reflexivity|lia].
Qed.

Lemma fix_sign (s : bool) (z e : Z) : ∃ c' e', fix_ s z e = Fin s c' e'.
Proof. unfold fix_. repeat destruct (_ <? _); eauto. Qed.

Lemma gt_fin (s1 : bool) (c1 : N) (e1 : Z) (s2 : bool) (c2 : N) (e2 : Z) :
  Dec.gt (Fin s1 c1 e1) (Fin s2 c2 e2) =
    Ok (signed s2 (aligned c2 e2 (Z.min e1 e2))
          <? signed s1 (aligned c1 e1 (Z.min e1 e2))).
Proof.
  unfold Dec.gt, compare_with, cmp. simpl. f_equal.
  rewrite Z.ltb_antisym, Z.leb_compare. by destruct (_ ?= _).
Qed.

Lemma lt_zero_fin (s : bool) (c : N) (e : Z) :
  Dec.lt (Fin s c e) (of_int 0) = Ok (s && negb (c =? 0)%N).
Proof.
  unfold Dec.lt, compare_with, cmp, of_int. simpl is_nan. simpl orb. cbv iota.
  f_equal. change (Z.abs_N 0) with 0%N. change (0 <? 0) with false.
  set (e0 := Z.min e 0).
  assert (aligned 0 0 e0 = 0) as -> by (unfold aligned; lia).
  simpl (signed false 0).
  pose proof (aligned_pos c e e0 ltac:(lia)) as Hp.
  pose proof (aligned_nonneg c e e0 ltac:(lia)) as Hn.
  destruct (Z.compare_spec (signed s (aligned c e e0)) 0) as [H|H|H];
    destruct (N.eqb_spec c 0) as [Hc|Hc];
    destruct s; simpl in *; try reflexivity; exfalso; lia.
Qed.

Lemma signed_nonneg (s : bool) (c : N) (e e0 : Z) :
  s = false ∨ c = 0%N → signed s (aligned c e e0) = aligned c e e0.
Proof. intros [->| ->]; [reflexivity|]. unfold aligned. destruct s; simpl; lia. Qed.

(** Adding a validated amount to such a balance cannot raise and gives a
    positive finite balance. *)
Lemma add_fin_nonneg (b : Decimal) (a : N) :
  fin_nonneg b → 0 < Z.of_N a →
  ∃ c' e', Dec.add b (Fin false a (-2)) = Ok (Fin false c' e').
Proof.
  intros (s & c & e & -> & Hs) Ha.
  change (Dec.add (Fin s c e) (Fin false a (-2)))
    with (Ok (add_fin s c e false a (-2))).
  unfold add_fin. set (e0 := Z.min e (-2)).
  rewrite (signed_nonneg s c e e0 Hs). simpl (signed false _).
  pose proof (aligned_nonneg c e e0 ltac:(lia)).
  pose proof (proj2 (aligned_pos a (-2) e0 ltac:(lia)) Ha).
  destruct (Z.eqb_spec (aligned c e e0 + aligned a (-2) e0) 0); [lia|].
  destruct (Z.ltb_spec (aligned c e e0 + aligned a (-2) e0) 0); [lia|].
  destruct (fix_sign false (Z.abs (aligned c e e0 + aligned a (-2) e0)) e0)
    as (c' & e' & ->). eauto.
Qed.

(** Subtracting a validated amount that is not greater than such a
    balance cannot raise and leaves a finite balance not below zero. *)
Lemma sub_fin_nonneg (b : Decimal) (a : N) :
  fin_nonneg b → Dec.gt (Fin false a (-2)) b = Ok false →
  ∃ b', Dec.sub b (Fin false a (-2)) = Ok b' ∧ fin_nonneg b'.
Proof.
  intros (s & c & e & -> & Hs). rewrite gt_fin. intros [= Hgt].
  change (Dec.sub (Fin s c e) (Fin false a (-2)))
    with (Ok (add_fin s c e true a (-2))).
  eexists. split; [reflexivity|].
  unfold add_fin. rewrite (Z.min_comm (-2) e) in Hgt.
  set (e0 := Z.min e (-2)) in *.
  rewrite (signed_nonneg s c e e0 Hs) in *. simpl (signed _ _) in *.
  apply Z.ltb_ge in Hgt.
  destruct (Z.eqb_spec (aligned c e e0 + - aligned a (-2) e0) 0) as [Hz|Hz].
  - rewrite Hz. rewrite andb_true_r. exists s, 0%N, e0. split; [|by right].
    apply fix_small. reflexivity.
  - destruct (Z.ltb_spec (aligned c e e0 + - aligned a (-2) e0) 0); [lia|].
    destruct (fix_sign false (Z.abs (aligned c e e0 + - aligned a (-2) e0)) e0)
      as (c' & e' & ->). exists false, c', e'. split; [reflexivity|by left].
Qed.

Lemma fin_nonneg_nonnegative (d : Decimal) :
  fin_nonneg d → nonnegative d = true.
Proof.
  intros (s & c & e & -> & Hs). unfold nonnegative, Dec.le, compare_with, cmp.
  simpl. set (e0 := Z.min 0 e).
  rewrite (signed_nonneg s c e e0 Hs).
  pose proof (aligned_nonneg c e e0 ltac:(lia)).
  destruct (aligned c e e0); [reflexivity..|lia].
Qed.

(** On balances at two places that fit the precision the arithmetic is
    exact integer arithmetic on cents. *)
Lemma add_scale2 (s : bool) (b a : N) :
  s = false ∨ b = 0%N → 0 < Z.of_N a → Z.of_N b + Z.of_N a < 10 ^ prec →
  Dec.add (Fin s b (-2)) (Fin false a (-2)) = Ok (Fin false (b + a) (-2)).
Proof.
  intros Hs Ha Hlt.
  change (Dec.add (Fin s b (-2)) (Fin false a (-2)))
    with (Ok (add_fin s b (-2) false a (-2))).
  f_equal. unfold add_fin. change (Z.min (-2) (-2)) with (-2).
  rewrite (signed_nonneg s b (-2) (-2) Hs). simpl (signed false _).
  rewrite !aligned_same.
  destruct (Z.eqb_spec (Z.of_N b + Z.of_N a) 0); [lia|].
  destruct (Z.ltb_spec (Z.of_N b + Z.of_N a) 0); [lia|].
  rewrite fix_small by lia. f_equal. lia.
Qed.

Lemma gt_scale2 (s : bool) (b a : N) :
  s = false ∨ b = 0%N →
  Dec.gt (Fin false a (-2)) (Fin s b (-2)) = Ok (Z.of_N b <? Z.of_N a).
Proof.
  intros Hs. rewrite gt_fin. change (Z.min (-2) (-2)) with (-2).
  rewrite (signed_nonneg s b (-2) (-2) Hs). simpl (signed false _).
  by rewrite !aligned_same.
Qed.

Lemma sub_scale2 (s : bool) (b a : N) :
  s = false ∨ b = 0%N → 0 < Z.of_N a ≤ Z.of_N b → Z.of_N b < 10 ^ prec →
  Dec.sub (Fin s b (-2)) (Fin false a (-2)) = Ok (Fin false (b - a) (-2)).
Proof.
  intros Hs Ha Hlt.
  assert (s = false) as -> by (destruct Hs as [|Hb]; [done|lia]).
  change (Dec.sub (Fin false b (-2)) (Fin false a (-2)))
    with (Ok (add_fin false b (-2) true a (-2))).
  f_equal. unfold add_fin. change (Z.min (-2) (-2)) with (-2).
  simpl (signed _ _). rewrite !aligned_same.
  destruct (Z.eqb_spec (Z.of_N b + - Z.of_N a) 0) as [Hz|Hz].
  - rewrite Hz. simpl. rewrite fix_small by reflexivity. f_equal. lia.
  - destruct (Z.ltb_spec (Z.of_N b + - Z.of_N a) 0); [lia|].
    rewrite fix_small by lia. f_equal. lia.
Qed.

(** ** Exact values *)

Lemma value_scale2 (s : bool) (c : N) :
  value (Fin s c (-2)) = Some (inject_Z (signed s (Z.of_N c)) * (1 # 100))%Q.
Proof. reflexivity. Qed.

Lemma amount_of_recorded (ty : string) (c : call) (d : Decimal) :
  amount_of ty (transaction_of c d) =
    if bool_decide (match c with
                    | Deposit _ _ => "deposit"
                    | Withdraw _ _ => "withdrawal"
                    end = ty)
    then default 0%Q (value d) else 0%Q.
Proof. destruct c; reflexivity. Qed.

Lemma total_snoc (ty : string) (log : list (gmap string dval))
    (t : gmap string dval) :
  (total ty (log ++ [t]) == total ty log + amount_of ty t)%Q.
Proof.
  induction log as [|t' log IH]; simpl.
  - ring.
  - fold (total ty (log ++ [t])). fold (total ty log). rewrite IH. ring.
Qed.

Lemma cents_plus (x y : Z) :
  (inject_Z x * (1 # 100) + inject_Z y * (1 # 100)
   == inject_Z (x + y) * (1 # 100))%Q.
Proof. rewrite inject_Z_plus. ring. Qed.

(** ** The ledger of a run *)

(** Along any run from a fresh account whose balance is a non-negative
    number of cents [c0], the log sums to whole cents [D] and [W], and as
    long as [c0 + D] fits the precision the balance is exactly
    [c0 + D - W] cents. *)
Lemma run_ledger (st0 : state) (s0 : bool) (c0 : N) (cs : list call) :
  wf_state st0 = true → history st0 = [] →
  _balance (self st0) = Fin s0 c0 (-2) → s0 = false ∨ c0 = 0%N →
  ∃ D W : Z,
    0 ≤ D ∧ 0 ≤ W
    ∧ (total "deposit" (history (run cs st0)) == inject_Z D * (1 # 100))%Q
    ∧ (total "withdrawal" (history (run cs st0)) == inject_Z W * (1 # 100))%Q
    ∧ (Z.of_N c0 + D < 10 ^ prec →
       ∃ s, _balance (self (run cs st0))
              = Fin s (Z.to_N (Z.of_N c0 + D - W)) (-2)
            ∧ 0 ≤ Z.of_N c0 + D - W
            ∧ (s = false ∨ Z.of_N c0 + D - W = 0)).
Proof.
  intros Hwf Hhist Hbal Hs0.
  induction cs as [|c cs IH] using rev_ind.
  { exists 0, 0. simpl. rewrite Hhist. repeat split; try lia; try reflexivity.
    intros _. exists s0. rewrite Hbal.
    replace (Z.of_N c0 + 0 - 0) with (Z.of_N c0) by lia. rewrite N2Z.id.
    repeat split; [lia|]. destruct Hs0; [by left|right; lia]. }
  destruct IH as (D & W & HD & HW & HtD & HtW & IH).
  rewrite run_snoc. set (st := run cs st0) in *.
  pose proof (run_wf cs st0 Hwf) as Hwfst. fold st in Hwfst.
  unfold after.
  destruct (perform_cases c st Hwfst)
    as [(e & -> & _)|(d & b' & st' & Hval & Hnew & -> & Hself & _ & Hlog)].
  { exists D, W. simpl. auto. }
  simpl. apply validate_inv in Hval as (a & -> & Ha).
  rewrite Hlog. rewrite Hself in *. simpl.
  destruct c as [amount now|amount now]; simpl in Hnew.
  - exists (D + Z.of_N a), W. split; [lia|]. split; [lia|].
    split; [|split].
    + rewrite total_snoc, HtD, amount_of_recorded, value_scale2. simpl.
      apply cents_plus.
    + rewrite total_snoc, HtW, amount_of_recorded. simpl. ring.
    + intros Hfit. destruct IH as (s & Hb & Hge & Hs); [lia|].
      rewrite Hb in Hnew. rewrite add_scale2 in Hnew; [| |lia|].
      * injection Hnew as <-. exists false. split; [f_equal; lia|].
        split; [lia|by left].
      * destruct Hs; [by left|right; lia].
      * rewrite Z2N.id by lia. lia.
  - exists D, (W + Z.of_N a). split; [lia|]. split; [lia|].
    split; [|split].
    + rewrite total_snoc, HtD, amount_of_recorded. simpl. ring.
    + rewrite total_snoc, HtW, amount_of_recorded, value_scale2. simpl.
      apply cents_plus.
    + intros Hfit. destruct IH as (s & Hb & Hge & Hs); [lia|].
      assert (Hs' : s = false ∨ Z.to_N (Z.of_N c0 + D - W) = 0%N)
        by (destruct Hs; [by left|right; lia]).
      rewrite Hb in Hnew. rewrite gt_scale2 in Hnew by exact Hs'.
      rewrite Z2N.id in Hnew by lia.
      destruct (Z.ltb_spec (Z.of_N c0 + D - W) (Z.of_N a)); [discriminate|].
      rewrite sub_scale2 in Hnew; [|exact Hs'|rewrite Z2N.id by lia; lia..].
      injection Hnew as <-. exists false. split; [f_equal; lia|].
      split; [lia|by left].
Qed.

(** The balance a construction leaves: a non-negative number of cents
    within the precision, or NaN when the initial balance was the float
    NaN, the one input that [initial_balance < 0] lets through although it
    is not a number. *)
Lemma init_balance_cases (number : pystr) (v : pyval) (h : gmap loc obj)
    (st0 : state) :
  __init__ number v h = Ok st0 →
  (∃ s c, _balance (self st0) = Fin s c (-2)
          ∧ (s = false ∨ c = 0%N) ∧ Z.of_N c < 10 ^ prec)
  ∨ (v = Num (PyFloat FNan) ∧ _balance (self st0) = NaN false false).
Proof.
  intros Hinit.
  apply init_inv in Hinit
    as (_ & _ & Hlt & (n & d & -> & Hd & Hq) & _ & _ & _).
  apply quantize_inv in Hq as [(s & c & e & -> & Hb & Hfit)|(s & -> & Hb)].
  - left. exists s, (Z.to_N (rescale_half_up (Z.of_N c) e (-2))).
    pose proof (rescale_half_up_nonneg (Z.of_N c) e (-2) ltac:(lia)).
    split; [exact Hb|]. split; [|rewrite Z2N.id by lia; exact Hfit].
    assert (Hs : s = false ∨ c = 0%N).
    { destruct n as [z|b|[s' c' e'|s'|]|d']; simpl in Hd, Hlt;
        try discriminate.
      - destruct (_ <? 10 ^ _); [|discriminate]. injection Hd as <- _ _.
        left. by injection Hlt.
      - injection Hd as -> -> _. injection Hlt as Hlt.
        destruct s; [right|by left].
        destruct (N.eqb_spec c 0); [done|discriminate].
      - injection Hd as ->. rewrite lt_zero_fin in Hlt. injection Hlt as Hlt.
        destruct s; [right|by left].
        destruct (N.eqb_spec c 0); [done|discriminate]. }
    destruct Hs as [->| ->]; [by left|right].
    simpl. by rewrite rescale_half_up_0.
  - right. destruct n as [z|b|[s' c' e'|s'|]|d']; simpl in Hd, Hlt;
      try discriminate.
    + destruct (_ <? 10 ^ _); discriminate.
    + injection Hd as <-. split; [reflexivity|]. by rewrite Hb.
    + injection Hd as ->. discriminate.
Qed.

Lemma run_fin_nonneg (cs : list call) (st : state) :
  wf_state st = true → fin_nonneg (_balance (self st)) →
  fin_nonneg (_balance (self (run cs st))).
Proof.
  intros Hwf Hb. induction cs as [|c cs IH] using rev_ind; [exact Hb|].
  rewrite run_snoc. pose proof (run_wf cs st Hwf) as Hwf'.
  set (st1 := run cs st) in *. unfold after.
  destruct (perform_cases c st1 Hwf')
    as [(e & -> & _)|(d & b' & st' & Hval & Hnew & -> & Hself & _ & _)];
    [exact IH|].
  simpl. rewrite Hself. simpl.
  apply validate_inv in Hval as (a & -> & Ha).
  destruct c as [amount now|amount now]; simpl in Hnew.
  - destruct (add_fin_nonneg _ a IH ltac:(lia)) as (c' & e' & Hadd).
    rewrite Hadd in Hnew. injection Hnew as <-.
    exists false, c', e'. split; [reflexivity|by left].
  - destruct (Dec.gt _ _) as [[|]|] eqn:Hgt; try discriminate.
    destruct (sub_fin_nonneg _ a IH Hgt) as (b2 & Hsub & Hb2).
    rewrite Hsub in Hnew. by injection Hnew as <-.
Qed.

(** Every account built from an initial balance other than the float NaN
    keeps a balance that is a finite decimal not below zero. *)
Lemma balance_nonnegative_unless_nan (number : pystr) (v : pyval)
    (h : gmap loc obj) (st0 : state) (cs : list call) :
  __init__ number v h = Ok st0 → v ≠ Num (PyFloat FNan) →
  nonnegative (_balance (self (run cs st0))) = true.
Proof.
  intros Hinit Hv. apply fin_nonneg_nonnegative, run_fin_nonneg.
  - by apply init_inv in Hinit as (_ & _ & _ & _ & _ & ? & _).
  - destruct (init_balance_cases _ _ _ _ Hinit)
      as [(s & c & -> & Hs & _)|[-> _]]; [|done].
    by exists s, c, (-2).
Qed.

(** ** Comparison and exact values *)

Lemma ten_nonzero : ¬ (inject_Z 10 == 0)%Q.
Proof. discriminate. Qed.

(** The value of a finite decimal, written at a smaller exponent. *)
Lemma value_aligned (s : bool) (c : N) (e e0 : Z) :
  e0 ≤ e →
  (inject_Z (signed s (Z.of_N c)) * Qpower (inject_Z 10) e
   == inject_Z (signed s (aligned c e e0)) * Qpower (inject_Z 10) e0)%Q.
Proof.
  intros He. unfold aligned. rewrite signed_mul, inject_Z_mult.
  rewrite Zpower_Qpower by lia.
  replace e with ((e - e0) + e0) at 1 by lia.
  rewrite Qpower_plus by exact ten_nonzero. ring.
Qed.

Lemma pow10_Qpos (e : Z) : (0 < Qpower (inject_Z 10) e)%Q.
Proof. apply Qpower_0_lt. reflexivity. Qed.

(** [a > b] on finite decimals is [>] on their values. *)
Lemma gt_value (a b : Decimal) (va vb : Q) :
  value a = Some va → value b = Some vb →
  (Dec.gt a b = Ok true ↔ (vb < va)%Q) ∧ (Dec.gt a b = Ok false ↔ (va <= vb)%Q).
Proof.
  destruct a as [s1 c1 e1| |]; [|discriminate..].
  destruct b as [s2 c2 e2| |]; [|discriminate..].
  simpl. intros [= <-] [= <-]. rewrite gt_fin.
  set (e0 := Z.min e1 e2).
  rewrite (value_aligned s1 c1 e1 e0), (value_aligned s2 c2 e2 e0) by lia.
  rewrite Qmult_lt_r, Qmult_le_r by apply pow10_Qpos.
  rewrite <- Zlt_Qlt, <- Zle_Qle.
  destruct (Z.ltb_spec (signed s2 (aligned c2 e2 e0))
              (signed s1 (aligned c1 e1 e0))); split; split;
    intros; try done; try lia.
Qed.

(** Two finite decimals of equal value have equal aligned coefficients. *)
Lemma value_eq_aligned (s1 : bool) (c1 : N) (e1 : Z)
    (s2 : bool) (c2 : N) (e2 : Z) (v1 v2 : Q) :
  value (Fin s1 c1 e1) = Some v1 → value (Fin s2 c2 e2) = Some v2 →
  (v1 == v2)%Q →
  signed s1 (aligned c1 e1 (Z.min e1 e2))
  = signed s2 (aligned c2 e2 (Z.min e1 e2)).
Proof.
  simpl. intros [= <-] [= <-].
  set (e0 := Z.min e1 e2).
  rewrite (value_aligned s1 c1 e1 e0), (value_aligned s2 c2 e2 e0) by lia.
  rewrite Qmult_inj_r.
  - apply inject_Z_injective.
  - intros H. pose proof (pow10_Qpos e0) as Hp. rewrite H in Hp.
    by apply Qlt_irrefl in Hp.
Qed.

(** The binary operations raise nothing but [InvalidOperation]. *)
Lemma gt_raises (a b : Decimal) (e : exn) :
  Dec.gt a b = Raise e → e = InvalidOperation.
Proof.
  unfold Dec.gt, compare_with. destruct (_ || _); [|discriminate].
  by intros [= <-].
Qed.

Lemma add_raises (a b : Decimal) (e : exn) :
  Dec.add a b = Raise e → e = InvalidOperation.
Proof.
  unfold Dec.add, check_nans.
  destruct a as [? ? ?|?|? [|]], b as [? ? ?|?|? [|]]; simpl;
    try discriminate; try (by intros [= <-]).
  destruct (Bool.eqb _ _); [discriminate|by intros [= <-]].
Qed.

Lemma sub_raises (a b : Decimal) (e : exn) :
  Dec.sub a b = Raise e → e = InvalidOperation.
Proof.
  unfold Dec.sub. destruct (check_nans a b) as [[|]|] eqn:Hc.
  - discriminate.
  - unfold check_nans in Hc. intros [= <-].
    destruct (_ || _); [by injection Hc|].
    destruct (is_nan a); [discriminate|]. destruct (is_nan b); discriminate.
  - apply add_raises.
Qed.

(** ** Rounding on exact values *)

(** The value of [c * 10^e] in cents, cleared of its denominator. *)
Lemma value_in_cents (z : Z) (e : Z) :
  (inject_Z z * Qpower (inject_Z 10) e * inject_Z (10 ^ Z.max 0 (-2 - e))
   == inject_Z (z * 10 ^ Z.max 0 (e - -2)) * (1 # 100))%Q.
Proof.
  rewrite inject_Z_mult, !Zpower_Qpower by lia.
  change (1 # 100)%Q with (Qpower (inject_Z 10) (-2)).
  rewrite <- !Qmult_assoc, <- !Qpower_plus by exact ten_nonzero.
  replace (e + Z.max 0 (-2 - e)) with (Z.max 0 (e - -2) + -2) by lia.
  reflexivity.
Qed.

Lemma Qhalf_le (k x d : Z) :
  ((inject_Z k - (1 # 2)) * inject_Z d <= inject_Z x)%Q
  ↔ (2 * k - 1) * d ≤ 2 * x.
Proof.
  unfold Qle, Qmult, Qminus, Qplus, Qopp, inject_Z. cbn [Qnum Qden]. lia.
Qed.

Lemma Qhalf_lt (k x d : Z) :
  (inject_Z x < (inject_Z k + (1 # 2)) * inject_Z d)%Q
  ↔ 2 * x < (2 * k + 1) * d.
Proof.
  unfold Qlt, Qmult, Qplus, inject_Z. cbn [Qnum Qden]. lia.
Qed.

(** The magnitude of [(-1)^s * c * 10^e] in hundredths, cleared of its
    denominator. *)
Lemma Qabs_value_in_cents (s : bool) (c : N) (e : Z) :
  (Qabs (inject_Z (signed s (Z.of_N c)) * Qpower (inject_Z 10) e)
   * inject_Z 100 * inject_Z (10 ^ Z.max 0 (-2 - e))
   == inject_Z (Z.of_N c * 10 ^ Z.max 0 (e - -2)))%Q.
Proof.
  rewrite Qabs_Qmult.
  rewrite (Qabs_pos (Qpower _ _)) by (apply Qlt_le_weak, pow10_Qpos).
  assert (Qabs (inject_Z (signed s (Z.of_N c))) = inject_Z (Z.of_N c)) as ->.
  { unfold Qabs, inject_Z. f_equal. destruct s; simpl; lia. }
  pose proof (value_in_cents (Z.of_N c) e) as H.
  transitivity (inject_Z (Z.of_N c) * Qpower (inject_Z 10) e
                * inject_Z (10 ^ Z.max 0 (-2 - e)) * inject_Z 100)%Q; [ring|].
  rewrite H. change (inject_Z 100) with (100 # 1)%Q. field.
Qed.

(** Rounding half-up on exact values is what [quantize] computes on the
    coefficient. *)
Lemma rounds_half_up_to_rescale (s : bool) (c : N) (e : Z) (v : Q)
    (cents : Z) :
  (inject_Z (signed s (Z.of_N c)) * Qpower (inject_Z 10) e == v)%Q →
  rounds_half_up_to v cents
  ↔ cents = signed s (rescale_half_up (Z.of_N c) e (-2)).
Proof.
  intros Hv. unfold rounds_half_up_to.
  pose proof (pow10_pos (Z.max 0 (-2 - e)) ltac:(lia)) as Hdown.
  assert (HdQ : (0 < inject_Z (10 ^ Z.max 0 (-2 - e)))%Q).
  { change (inject_Z 0 < inject_Z (10 ^ Z.max 0 (-2 - e)))%Q.
    by rewrite <- Zlt_Qlt. }
  pose proof (Qabs_value_in_cents s c e) as Habs. rewrite Hv in Habs.
  pose proof (rescale_half_up_spec (Z.of_N c) e (-2) ltac:(lia)) as Hspec.
  pose proof (rescale_half_up_nonneg (Z.of_N c) e (-2) ltac:(lia)) as Hnn.
  pose proof (pow10_Qpos e) as HP.
  assert (Hsign : ((0 <= v)%Q ↔ 0 ≤ signed s (Z.of_N c))
                  ∧ ((v <= 0)%Q ↔ signed s (Z.of_N c) ≤ 0)).
  { rewrite <- Hv. split.
    - transitivity (0 * Qpower (inject_Z 10) e
                    <= inject_Z (signed s (Z.of_N c)) * Qpower (inject_Z 10) e)%Q;
        [by rewrite Qmult_0_l|].
      rewrite (Qmult_le_r _ _ _ HP). by rewrite (Zle_Qle 0).
    - transitivity (inject_Z (signed s (Z.of_N c)) * Qpower (inject_Z 10) e
                    <= 0 * Qpower (inject_Z 10) e)%Q;
        [by rewrite Qmult_0_l|].
      rewrite (Qmult_le_r _ _ _ HP).
      by rewrite (Zle_Qle (signed s (Z.of_N c)) 0). }
  destruct Hsign as [Hge Hle].
  rewrite <- (Qmult_le_r _ _ _ HdQ), <- (Qmult_lt_r _ _ _ HdQ), Habs.
  rewrite Qhalf_le, Qhalf_lt.
  unfold is_half_up in Hspec.
  set (down := 10 ^ Z.max 0 (-2 - e)) in *.
  set (x := Z.of_N c * 10 ^ Z.max 0 (e - -2)) in *.
  replace (2 * Z.of_N c * 10 ^ Z.max 0 (e - -2)) with (2 * x) in Hspec
    by (unfold x; lia).
  set (r := rescale_half_up (Z.of_N c) e (-2)) in *.
  assert (Hzero : Z.of_N c = 0 → r = 0).
  { intros H0. unfold r. rewrite H0. apply rescale_half_up_0. }
  rewrite Hge, Hle. split.
  - intros (H1 & H2 & H3 & H4).
    assert (Z.abs cents = r) by nia.
    destruct s; simpl in *; lia.
  - intros ->.
    assert (Z.abs (signed s r) = r) as -> by (destruct s; simpl; lia).
    split; [nia|]. split; [nia|].
    destruct s; simpl in *; split; intros; lia.
Qed.

(** The decimal [Decimal(str(x))] builds has the value [str] writes. *)
Lemma printed_value_decimal (n : pynum) (v : Q) :
  printed_value n = Some v →
  ∃ s c e,
    (inject_Z (signed s (Z.of_N c)) * Qpower (inject_Z 10) e == v)%Q
    ∧ (Decimal_of_str n = Ok (Fin s c e)
       ∨ ∃ z, n = PyInt z ∧ 10 ^ int_max_str_digits ≤ Z.abs z
              ∧ c = Z.abs_N z ∧ e = 0
              ∧ ∃ msg, Decimal_of_str n = Raise (ValueError msg)).
Proof.
  destruct n as [z|b|[s c e|s|]|[s c e|s|s g]]; simpl; try discriminate.
  - intros [= <-]. exists (z <? 0), (Z.abs_N z), 0. split.
    + simpl Qpower. rewrite Qmult_1_r, N2Z.inj_abs_N.
      destruct (Z.ltb_spec z 0); simpl; f_equiv; lia.
    + destruct (Z.ltb_spec (Z.abs z) (10 ^ int_max_str_digits)).
      * by left.
      * right. exists z. repeat split; try done. by eexists.
  - intros [= <-]. exists s, c, e. split; [reflexivity|by left].
  - intros [= <-]. exists s, c, e. split; [reflexivity|by left].
Qed.


(** Within the precision, the input converts to the decimal whose
    coefficient [quantize] rounds to the cents of its printed value. *)
Lemma printed_value_fits (n : pynum) (v : Q) (cents : Z) :
  printed_value n = Some v → rounds_half_up_to v cents →
  Z.abs cents < 10 ^ prec →
  ∃ s c e,
    Decimal_of_str n = Ok (Fin s c e)
    ∧ cents = signed s (rescale_half_up (Z.of_N c) e (-2))
    ∧ rescale_half_up (Z.of_N c) e (-2) < 10 ^ prec.
Proof.
  intros Hp Hr Hfit.
  destruct (printed_value_decimal n v Hp) as (s & c & e & Hv & Hd).
  apply (rounds_half_up_to_rescale s c e v cents Hv) in Hr.
  pose proof (rescale_half_up_nonneg (Z.of_N c) e (-2) ltac:(lia)) as Hnn.
  assert (Habs : Z.abs cents = rescale_half_up (Z.of_N c) e (-2))
    by (subst cents; destruct s; simpl; lia).
  destruct Hd as [Hd|(z & -> & Hbig & -> & -> & _)].
  - exists s, c, e. split; [exact Hd|]. split; [exact Hr|lia].
  - exfalso. rewrite Habs in Hfit. unfold rescale_half_up in Hfit.
    simpl in Hfit. rewrite N2Z.inj_abs_N in Hfit.
    pose proof (Z.pow_le_mono_r 10 prec int_max_str_digits
                  ltac:(lia) ltac:(unfold prec, int_max_str_digits; lia)).
    lia.
Qed.

(** A number of whole cents rounds to itself. *)
Lemma rounds_half_up_to_exact (v : Q) (k : Z) :
  (v == k # 100)%Q → rounds_half_up_to v k.
Proof.
  intros Hv. unfold rounds_half_up_to. rewrite Hv.
  unfold Qabs, Qle, Qlt, Qmult, Qminus, Qplus, Qopp, inject_Z.
  cbn [Qnum Qden]. repeat split; lia.
Qed.


(** * The claims *)

(** ** C1: the balance law *)

(** C1, as stated, fails: an account opened with
    99999999999999999999999999.99 (28 digits) and credited 0.02 has the
    balance 100000000000000000000000000.0, because the sum needs 29
    digits and the context rounds it to 28; the balance is then 0.01 short
    of the initial balance plus the deposits. *)
Lemma balance_law_fails_beyond_28_digits :
  ∃ st0,
    __init__ (str_of "123456789")
      (Num (PyDecimal (Fin false 9999999999999999999999999999 (-2)))) ∅
    = Ok st0
    ∧ ¬ balance_law st0
          (run [Deposit (Num (PyDecimal (Fin false 2 (-2))))
                  "2024-01-01T00:00:00"] st0).
Proof.
  eexists. split; [vm_compute; reflexivity|].
  intros (v0 & v & H0 & H & E).
  vm_compute in H0. injection H0 as <-.
  vm_compute in H. injection H as <-.
  vm_compute in E. discriminate.
Qed.

(** C1, amended: for every account built from an initial balance other
    than the float NaN and every sequence of deposit and withdraw calls,
    successful or failing, such that the rounded initial balance plus the
    deposits in the history stay below 10^26 (so that every balance fits
    the 28 digits of the decimal context), the balance equals the rounded
    initial balance plus the sum of the Deposit amounts minus the sum of
    the Withdrawal amounts in the history, as exact rationals. *)
Theorem balance_law_within_precision (number : pystr) (v : pyval)
    (h : gmap loc obj) (st0 : state) (cs : list call) :
  __init__ number v h = Ok st0 →
  v ≠ Num (PyFloat FNan) →
  (default 0 (value (_balance (self st0)))
   + total "deposit" (history (run cs st0)) < inject_Z (10 ^ 26))%Q →
  balance_law st0 (run cs st0).
Proof.
  intros Hinit Hv Hbound.
  pose proof Hinit as Hi.
  apply init_inv in Hi as (_ & _ & _ & _ & _ & Hwf & Hhist).
  destruct (init_balance_cases _ _ _ _ Hinit)
    as [(s0 & c0 & Hb & Hs0 & Hfit)|[-> _]]; [|done].
  destruct (run_ledger st0 s0 c0 cs Hwf Hhist Hb Hs0)
    as (D & W & HD & HW & HtD & HtW & Hbal).
  assert (Hsg : signed s0 (Z.of_N c0) = Z.of_N c0).
  { destruct Hs0 as [->| ->]; [done|by destruct s0]. }
  rewrite Hb, value_scale2, Hsg in Hbound. simpl default in Hbound.
  rewrite HtD, cents_plus in Hbound.
  assert (Hlt : Z.of_N c0 + D < 10 ^ prec).
  { unfold Qlt in Hbound. simpl in Hbound. unfold prec.
    change (10 ^ 28) with 10000000000000000000000000000. lia. }
  destruct (Hbal Hlt) as (s & Hbs & Hge & Hs).
  exists (inject_Z (Z.of_N c0) * (1 # 100))%Q,
         (inject_Z (Z.of_N c0 + D - W) * (1 # 100))%Q.
  split; [by rewrite Hb, value_scale2, Hsg|].
  split.
  { rewrite Hbs, value_scale2, Z2N.id by lia.
    destruct Hs as [->|Hz]; [done|]. rewrite Hz. by destruct s. }
  rewrite HtD, HtW. unfold Z.sub. rewrite !inject_Z_plus, inject_Z_opp. ring.
Qed.

(** The amended C1 at an account opened with 0.1 (a float), after a
    deposit of 0.2, a withdrawal of 5 that fails and a withdrawal of
    0.05. *)
Lemma balance_law_within_precision_witness :
  ∃ st0,
    __init__ (str_of "123456789") (Num (PyFloat (FNum false 1 (-1)))) ∅
    = Ok st0
    ∧ balance_law st0
        (run [Deposit (Num (PyFloat (FNum false 2 (-1)))) "t1";
              Withdraw (Num (PyInt 5)) "t2";
              Withdraw (Num (PyDecimal (Fin false 5 (-2)))) "t3"] st0).
Proof.
  eexists. split; [vm_compute; reflexivity|].
  apply (balance_law_within_precision (str_of "123456789")
           (Num (PyFloat (FNum false 1 (-1)))) ∅);
    [vm_compute; reflexivity|discriminate|vm_compute; reflexivity].
Defined.

(** ** C2: the balance is never negative *)

Lemma run_nan_balance (cs : list call) (st : state) :
  wf_state st = true → _balance (self st) = NaN false false →
  _balance (self (run cs st)) = NaN false false.
Proof.
  intros Hwf Hb. induction cs as [|c cs IH] using rev_ind; [exact Hb|].
  rewrite run_snoc. pose proof (run_wf cs st Hwf) as Hwf'.
  set (st1 := run cs st) in *. unfold after.
  destruct (perform_cases c st1 Hwf')
    as [(e & -> & _)|(d & b' & st' & Hval & Hnew & -> & Hself & _ & _)];
    [exact IH|].
  simpl. rewrite Hself. simpl. rewrite IH in Hnew.
  apply validate_inv in Hval as (a & -> & _).
  destruct c as [amount now|amount now]; simpl in Hnew.
  - by injection Hnew as <-.
  - discriminate.
Qed.

(** C2 at its failing input: [BankAccount("123456789", float("nan"))] is
    built, because [nan < 0] is false, and its balance is the decimal NaN,
    for which [0 <= balance] does not hold; no later deposit or withdrawal
    changes that. *)
Theorem nan_initial_balance_is_accepted :
  ∃ st0,
    __init__ (str_of "123456789") (Num (PyFloat FNan)) ∅ = Ok st0
    ∧ _balance (self st0) = NaN false false
    ∧ ∀ cs, nonnegative (_balance (self (run cs st0))) = false.
Proof.
  eexists. split; [vm_compute; reflexivity|]. split; [reflexivity|].
  intros cs. rewrite run_nan_balance; reflexivity.
Qed.

(** ** C3: a failed call changes nothing *)

(** C3: on every account the class has built, a deposit or a withdrawal
    that raises, whatever the exception, leaves the whole state as it
    was, its balance and its transaction history in particular. *)
Theorem failed_call_is_noop (st : state) (c : call) (e : exn) :
  wf_state st = true →
  (perform c st).1 = Raise e →
  (perform c st).2 = st
  ∧ _balance (self (after st c)) = _balance (self st)
  ∧ history (after st c) = history st.
Proof.
  intros Hwf Hraise. unfold after.
  destruct (perform_cases c st Hwf)
    as [(e' & Hp & _)|(d & b' & st' & _ & _ & Hp & _)];
    rewrite Hp in *; [done|discriminate].
Qed.

(** C3 at an account holding 0.10: a withdrawal of 5 raises
    [InsufficientFunds] and leaves the account as it was. *)
Lemma failed_call_is_noop_witness :
  ∃ st0,
    __init__ (str_of "123456789") (Num (PyFloat (FNum false 1 (-1)))) ∅
    = Ok st0
    ∧ (perform (Withdraw (Num (PyInt 5)) "t") st0).1 = Raise InsufficientFunds
    ∧ (perform (Withdraw (Num (PyInt 5)) "t") st0).2 = st0.
Proof.
  eexists. split; [vm_compute; reflexivity|]. split; [reflexivity|].
  apply (failed_call_is_noop _ (Withdraw (Num (PyInt 5)) "t")
           InsufficientFunds); reflexivity.
Defined.

(** ** C10: Boolean amounts *)

(** [deposit(True)] on an account holding 0.10 raises
    [decimal.InvalidOperation] -- [Decimal(str(True))] is
    [Decimal('True')] -- and the balance is still 0.10, whereas
    [deposit(1)] returns and leaves 1.10; [deposit(False)] does not fail
    with NonPositiveAmount. *)
Lemma deposit_True_is_not_a_deposit_of_1 :
  ∃ st0,
    __init__ (str_of "123456789") (Num (PyFloat (FNum false 1 (-1)))) ∅
    = Ok st0
    ∧ (deposit (Num (PyBool true)) "t" st0).1 = Raise InvalidOperation
    ∧ _balance (self (deposit (Num (PyBool true)) "t" st0).2)
      = Fin false 10 (-2)
    ∧ (deposit (Num (PyInt 1)) "t" st0).1 = Ok true
    ∧ _balance (self (deposit (Num (PyInt 1)) "t" st0).2)
      = Fin false 110 (-2)
    ∧ (deposit (Num (PyBool false)) "t" st0).1 ≠ Raise NonPositiveAmount.
Proof.
  eexists. split; [vm_compute; reflexivity|].
  do 4 (split; [vm_compute; reflexivity|]).
  vm_compute. discriminate.
Qed.

(** C10 at its failing inputs: [True] and [False] pass the numeric-type
    check, so they are not rejected as NonNumericAmount, but the
    conversion [Decimal(str(b))] that follows fails on ['True'] and
    ['False'].  On every account [deposit] and [withdraw] of a Boolean
    raise [decimal.InvalidOperation] and change nothing: [deposit(True)]
    deposits no 1.00, and [deposit(False)] does not raise the
    [ValueError] the docstring promises for an amount that is not
    positive. *)
Theorem bool_amount_fails_conversion (b : bool) (now : string) (st : state) :
  _validate_amount (Num (PyBool b)) = Raise InvalidOperation
  ∧ _validate_amount (Num (PyBool b)) ≠ Raise NonNumericAmount
  ∧ deposit (Num (PyBool b)) now st = (Raise InvalidOperation, st)
  ∧ withdraw (Num (PyBool b)) now st = (Raise InvalidOperation, st).
Proof.
  split; [reflexivity|]. split; [discriminate|].
  split; [by rewrite deposit_unfold|by rewrite withdraw_unfold].
Qed.

(** ** C4: validation rounds half-up and rejects what is not positive *)

(** Round-half-up determines its result. *)
Lemma is_half_up_unique (c e t r : Z) :
  0 ≤ c → is_half_up c e t r → r = rescale_half_up c e t.
Proof.
  intros Hc Hr. pose proof (rescale_half_up_spec c e t Hc) as Hq.
  unfold is_half_up in *.
  pose proof (pow10_pos (Z.max 0 (t - e)) ltac:(lia)).
  set (down := 10 ^ Z.max 0 (t - e)) in *.
  set (x := 2 * c * 10 ^ Z.max 0 (e - t) + down) in *.
  set (q := rescale_half_up c e t) in *. nia.
Qed.

(** Beyond the precision, validation fails with the signal of the decimal
    module, whatever the sign of the input. *)
Lemma validate_beyond_precision (n : pynum) (s : bool) (c : N) (e : Z) :
  Decimal_of_str n = Ok (Fin s c e) →
  10 ^ prec ≤ rescale_half_up (Z.of_N c) e (-2) →
  _validate_amount (Num n) = Raise InvalidOperation.
Proof.
  intros Hn Hq. unfold _validate_amount. rewrite Hn.
  unfold mbind, result_bind. rewrite quantize_fin. cbv zeta.
  destruct (Z.ltb_spec (rescale_half_up (Z.of_N c) e (-2)) (10 ^ prec));
    [lia|reflexivity].
Qed.

(** A negative amount beyond the precision is not reported as
    non-positive: the [int] -10^30 is below zero, yet validation fails
    with [decimal.InvalidOperation], not with the [ValueError] the
    docstring promises for an amount that is not positive. *)
Lemma validate_huge_negative_is_not_NonPositiveAmount :
  is_negative (PyInt (- 10 ^ 30)) = true
  ∧ Decimal_of_str (PyInt (- 10 ^ 30)) = Ok (Fin true (10 ^ 30) 0)
  ∧ signed true (rescale_half_up (10 ^ 30) 0 (-2)) ≤ 0
  ∧ _validate_amount (Num (PyInt (- 10 ^ 30))) = Raise InvalidOperation
  ∧ _validate_amount (Num (PyInt (- 10 ^ 30))) ≠ Raise NonPositiveAmount.
Proof.
  split; [reflexivity|]. split; [reflexivity|].
  split; [vm_compute; discriminate|].
  split; [reflexivity|vm_compute; discriminate].
Qed.

(** C4, as stated, fails: the [int] 10^30 rounds to 10^32 cents, a value
    above zero, yet validation does not convert it: it fails with
    [decimal.InvalidOperation], because the quantized value would need
    more than 28 digits. *)
Lemma validate_huge_positive_is_not_converted :
  printed_value (PyInt (10 ^ 30)) = Some (inject_Z (10 ^ 30))
  ∧ rounds_half_up_to (inject_Z (10 ^ 30)) (10 ^ 32)
  ∧ 0 < 10 ^ 32
  ∧ _validate_amount (Num (PyInt (10 ^ 30))) = Raise InvalidOperation
  ∧ ∀ d, _validate_amount (Num (PyInt (10 ^ 30))) ≠ Ok d.
Proof.
  split; [reflexivity|].
  split; [apply rounds_half_up_to_exact; reflexivity|].
  split; [reflexivity|]. split; [reflexivity|].
  intros d. vm_compute. discriminate.
Qed.

(** C4, amended: for every [int] (not a [bool]), [float] or [Decimal]
    input that is a finite number, let [v] be its value -- for a [float]
    the value of the digits [str] prints for it -- and [cents] the
    hundredths nearest to [v], halves rounded away from zero.  When
    [cents] is below 10^28 in magnitude (the amount below 10^26),
    validation fails with NonPositiveAmount exactly when [cents] is at
    most zero, and otherwise returns [cents] hundredths at two places;
    10.999 validates to 11.00 and 0.001 is rejected; and when a deposit
    or a withdrawal of the input returns, the validated amount is the
    operand of the balance update and the amount recorded in the
    history. *)
Theorem validate_amount_rounds_half_up (n : pynum) (v : Q) (cents : Z) :
  printed_value n = Some v →
  rounds_half_up_to v cents →
  Z.abs cents < 10 ^ prec →
  (_validate_amount (Num n) = Raise NonPositiveAmount ↔ cents ≤ 0)
  ∧ (0 < cents →
     _validate_amount (Num n) = Ok (Fin false (Z.to_N cents) (-2)))
  ∧ _validate_amount (Num (PyFloat (FNum false 10999 (-3))))
    = Ok (Fin false 1100 (-2))
  ∧ _validate_amount (Num (PyFloat (FNum false 1 (-3))))
    = Raise NonPositiveAmount
  ∧ (∀ (k : call) (st st' : state),
       amount_arg k = Num n → wf_state st = true →
       perform k st = (Ok true, st') →
       ∃ d, _validate_amount (Num n) = Ok d
            ∧ new_balance k (_balance (self st)) d = Ok (_balance (self st'))
            ∧ history st' = history st ++ [transaction_of k d]).
Proof.
  intros Hp Hr Hfit.
  destruct (printed_value_fits n v cents Hp Hr Hfit)
    as (s & c & e & Hn & -> & Hq).
  pose proof (validate_fin n s c e Hn Hq) as Hv.
  pose proof (rescale_half_up_nonneg (Z.of_N c) e (-2) ltac:(lia)) as Hnn.
  set (r := rescale_half_up (Z.of_N c) e (-2)) in *.
  split; [|split; [|split; [reflexivity|split; [reflexivity|]]]].
  - rewrite Hv. destruct (Z.ltb_spec 0 (signed s r)); split;
      intros; try done; lia.
  - intros Hpos. rewrite Hv.
    destruct (Z.ltb_spec 0 (signed s r)); [|lia].
    apply signed_pos in Hpos as [-> _]; [reflexivity|exact Hnn].
  - intros k st st' Hk Hwf Hperf.
    destruct (perform_cases k st Hwf)
      as [(e' & Hp' & _)|(d & b' & st2 & Hval & Hnew & Hp' & Hself & _ & Hlog)];
      rewrite Hperf in Hp'; [discriminate|].
    injection Hp' as <-. rewrite Hk in Hval. exists d.
    split; [exact Hval|]. split; [|exact Hlog].
    rewrite Hself. exact Hnew.
Qed.

(** The amended C4 at the float 10.999, which rounds to 1100 cents, and
    at the [int] -5. *)
Lemma validate_amount_rounds_half_up_witness :
  printed_value (PyFloat (FNum false 10999 (-3))) = Some (10999 # 1000)%Q
  ∧ rounds_half_up_to (10999 # 1000)%Q 1100
  ∧ _validate_amount (Num (PyFloat (FNum false 10999 (-3))))
    = Ok (Fin false 1100 (-2))
  ∧ printed_value (PyInt (-5)) = Some (inject_Z (-5))
  ∧ rounds_half_up_to (inject_Z (-5)) (-500)
  ∧ _validate_amount (Num (PyInt (-5))) = Raise NonPositiveAmount.
Proof.
  assert (H1 : rounds_half_up_to (10999 # 1000)%Q 1100).
  { unfold rounds_half_up_to, Qabs, Qle, Qlt, Qmult, Qminus, Qplus, Qopp,
      inject_Z. cbn [Qnum Qden]. repeat split; lia. }
  assert (H2 : rounds_half_up_to (inject_Z (-5)) (-500))
    by (apply rounds_half_up_to_exact; reflexivity).
  split; [reflexivity|]. split; [exact H1|].
  split; [|split; [reflexivity|split; [exact H2|]]].
  - destruct (validate_amount_rounds_half_up
                (PyFloat (FNum false 10999 (-3))) (10999 # 1000)%Q 1100
                eq_refl H1 eq_refl) as (_ & Hpos & _).
    apply Hpos. reflexivity.
  - destruct (validate_amount_rounds_half_up
                (PyInt (-5)) (inject_Z (-5)) (-500) eq_refl H2 eq_refl)
      as (Hiff & _).
    apply Hiff. discriminate.
Defined.


(** ** C8: validation is idempotent *)

(** C8, as stated, fails: 100000000000000000000000000.00 is strictly
    positive and already at two places, yet validation does not return it
    but fails, because it has 29 digits. *)
Lemma validate_rejects_29_digit_amount :
  _validate_amount (Num (PyDecimal (Fin false (10 ^ 28) (-2))))
  = Raise InvalidOperation.
Proof. reflexivity. Qed.

(** C8, amended: every strictly positive amount at two places of at most
    28 digits (below 10^26) is returned unchanged by validation, and
    validating the result of a successful validation returns that same
    result. *)
Theorem validate_amount_idempotent (a : N) (v : pyval) (d : Decimal) :
  0 < Z.of_N a < 10 ^ prec →
  _validate_amount v = Ok d →
  _validate_amount (Num (PyDecimal (Fin false a (-2)))) = Ok (Fin false a (-2))
  ∧ _validate_amount (Num (PyDecimal d)) = Ok d.
Proof.
  assert (Hfix : ∀ a : N, 0 < Z.of_N a < 10 ^ prec →
            _validate_amount (Num (PyDecimal (Fin false a (-2))))
            = Ok (Fin false a (-2))).
  { clear. intros a Ha.
    assert (Hr : rescale_half_up (Z.of_N a) (-2) (-2) = Z.of_N a)
      by (unfold rescale_half_up; simpl; lia).
    rewrite (validate_fin (PyDecimal (Fin false a (-2))) false a (-2) eq_refl)
      by (rewrite Hr; lia).
    rewrite Hr. simpl signed.
    destruct (Z.ltb_spec 0 (Z.of_N a)); [|lia]. by rewrite N2Z.id. }
  intros Ha Hv. split; [by apply Hfix|].
  apply validate_inv in Hv as (a' & -> & Ha'). by apply Hfix.
Qed.

(** The amended C8 at 12.34 and at the float 10.999. *)
Lemma validate_amount_idempotent_witness :
  _validate_amount (Num (PyDecimal (Fin false 1234 (-2))))
  = Ok (Fin false 1234 (-2))
  ∧ _validate_amount (Num (PyDecimal (Fin false 1100 (-2))))
    = Ok (Fin false 1100 (-2)).
Proof.
  apply (validate_amount_idempotent 1234
           (Num (PyFloat (FNum false 10999 (-3)))) (Fin false 1100 (-2)));
    [vm_compute; split; reflexivity|reflexivity].
Defined.

(** ** C7: construction and the initial balance *)

Lemma lt_zero_negative (n : pynum) :
  is_negative n = true → lt_zero (Num n) = Ok true.
Proof.
  destruct n as [z|b|[s c e|s|]|[s c e|s|s g]]; simpl; try discriminate;
    try (by intros ->).
  intros H. by rewrite lt_zero_fin, H.
Qed.


(** C7 at its failing input: [BankAccount("123456789", float("nan"))] is
    built, and its balance is the decimal NaN that [quantize] hands
    back: no number, and so not the initial balance at two places; the
    history is empty. *)
Theorem nan_initial_balance_is_not_rounded :
  ∃ st,
    __init__ (str_of "123456789") (Num (PyFloat FNan)) ∅ = Ok st
    ∧ lt_zero (Num (PyFloat FNan)) = Ok false
    ∧ quantize (NaN false false) CURRENCY_PRECISION = Ok (_balance (self st))
    ∧ value (_balance (self st)) = None
    ∧ (∀ s c, _balance (self st) ≠ Fin s c (-2))
    ∧ history st = [].
Proof.
  eexists. split; [vm_compute; reflexivity|].
  do 3 (split; [reflexivity|]). split; [discriminate|].
  vm_compute; reflexivity.
Qed.

(** No other input that prints no number builds an account: Booleans
    fail in the conversion, infinities in [quantize], and a [Decimal]
    NaN in the comparison with zero. *)
Lemma only_float_nan_is_built_without_a_number (number : pystr) (n : pynum)
    (h : gmap loc obj) (st : state) :
  __init__ number (Num n) h = Ok st → printed_value n = None →
  n = PyFloat FNan.
Proof.
  intros Hinit Hp.
  apply init_inv in Hinit as (_ & _ & Hlt & (n' & d & [= <-] & Hd & Hq) & _).
  destruct n as [z|b|[s c e|s|]|[s c e|s|s g]]; try discriminate;
    try reflexivity; injection Hd as <-; discriminate.
Qed.

(** ** C6: the account number *)

Lemma quantize_raises (d x : Decimal) (e : exn) :
  quantize d x = Raise e → e = InvalidOperation.
Proof.
  unfold quantize, check_nans.
  destruct d as [? ? ?|?|? [|]], x as [? ? ?|?|? [|]]; simpl;
    try discriminate; try (by intros [= <-]).
  destruct (_ <? _); [discriminate|by intros [= <-]].
Qed.

Lemma lt_raises (a b : Decimal) (e : exn) :
  Dec.lt a b = Raise e → e = InvalidOperation.
Proof.
  unfold Dec.lt, compare_with. destruct (_ || _); [|discriminate].
  by intros [= <-].
Qed.

Lemma existsb_ranges_above (cp : N) (ranges : list (N * N)) :
  forallb (λ r, (128 <=? r.1)%N) ranges = true → (cp < 128)%N →
  existsb (λ r, (r.1 <=? cp)%N && (cp <=? r.2)%N) ranges = false.
Proof.
  intros Hall Hcp. induction ranges as [|r ranges IH]; [reflexivity|].
  simpl in Hall. apply andb_true_iff in Hall as [Hr Hall].
  simpl. rewrite (IH Hall). apply N.leb_le in Hr.
  destruct (N.leb_spec r.1 cp); [lia|reflexivity].
Qed.

(** Below U+0080 the digits are the ten ASCII digits. *)
Lemma isdigit_char_ascii (cp : N) :
  (cp < 128)%N → isdigit_char cp = is_ascii_digit cp.
Proof.
  intros Hcp. unfold isdigit_char.
  change isdigit_ranges with ((48, 57)%N :: tail isdigit_ranges).
  cbn [existsb fst snd]. fold (is_ascii_digit cp).
  rewrite existsb_ranges_above; [apply orb_false_r|reflexivity|exact Hcp].
Qed.

(** C6, as stated, fails: the nine ARABIC-INDIC digits U+0661..U+0669
    are not ASCII digits, yet [str.isdigit] holds of them and the account
    is built. *)
Lemma arabic_indic_identifier_is_accepted :
  forallb is_ascii_digit [1633; 1634; 1635; 1636; 1637; 1638; 1639; 1640; 1641]%N
  = false
  ∧ ∃ st,
      __init__ [1633; 1634; 1635; 1636; 1637; 1638; 1639; 1640; 1641]%N
        (Num (PyInt 0)) ∅ = Ok st.
Proof. split; [reflexivity|]. eexists. reflexivity. Qed.

(** C6, amended: construction accepts the identifier (does not fail with
    InvalidIdentifier) if and only if it consists of exactly 9 characters
    on each of which [str.isdigit] holds, that is, 9 Unicode digit
    characters; for an identifier of ASCII characters these are exactly
    the 9 ASCII decimal digits.  Every other identifier fails with
    InvalidIdentifier, the empty one with its own message. *)
Theorem identifier_accepted_iff (number : pystr) (v : pyval)
    (h : gmap loc obj) :
  ((length number = 9%nat ∧ forallb isdigit_char number = true) →
   ∀ e, __init__ number v h = Raise e → is_InvalidIdentifier e = false)
  ∧ (¬ (length number = 9%nat ∧ forallb isdigit_char number = true) →
     ∃ e, __init__ number v h = Raise e ∧ is_InvalidIdentifier e = true)
  ∧ (number = [] → __init__ number v h = Raise InvalidIdentifier_empty)
  ∧ (Forall (λ cp, (cp < 128)%N) number →
     forallb isdigit_char number = forallb is_ascii_digit number).
Proof.
  split; [|split; [|split]].
  - intros [Hlen Hdig] e. unfold __init__.
    assert (Hne : number ≠ []) by (by destruct number).
    rewrite bool_decide_eq_false_2 by exact Hne.
    assert (isdigit number = true) as -> by (by destruct number).
    rewrite (bool_decide_eq_true_2 _ Hlen). simpl.
    unfold mbind, result_bind.
    destruct (lt_zero v) as [[|]|e1] eqn:Hlt.
    + by intros [= <-].
    + destruct v as [n| |]; [|by intros [= <-]..].
      destruct (Decimal_of_str n) as [d|e2] eqn:Hd.
      * destruct (quantize d CURRENCY_PRECISION) as [b|e3] eqn:Hq;
          [discriminate|].
        apply quantize_raises in Hq as ->. by intros [= <-].
      * intros [= <-].
        destruct n as [z|b|[s c x|s|]|d']; simpl in Hd; try discriminate.
        -- destruct (_ <? 10 ^ _); [discriminate|]. by injection Hd as <-.
        -- by injection Hd as <-.
    + intros [= <-].
      destruct v as [[z|b|[s c x|s|]|d']| |]; simpl in Hlt;
        try discriminate; try (by injection Hlt as <-).
      by apply lt_raises in Hlt as ->.
  - intros Hbad. unfold __init__. case_bool_decide as Hemp.
    { by exists InvalidIdentifier_empty. }
    destruct (negb (isdigit number)
              || negb (bool_decide (length number = ACCOUNT_NUMBER_LENGTH)))
      eqn:Hchk.
    { by exists InvalidIdentifier_format. }
    exfalso. apply Hbad.
    apply orb_false_iff in Hchk as [Hd Hl].
    apply negb_false_iff in Hd, Hl. apply bool_decide_eq_true in Hl.
    split; [exact Hl|]. by destruct number.
  - intros ->. reflexivity.
  - intros Hascii. induction Hascii as [|cp number Hcp _ IH]; [reflexivity|].
    simpl. by rewrite IH, (isdigit_char_ascii cp Hcp).
Qed.

(** The amended C6 at ["123456789"], which is accepted, and at
    ["12345"], which is not. *)
Lemma identifier_accepted_iff_witness :
  (∀ e, __init__ (str_of "123456789") (Num (PyInt (-1))) ∅ = Raise e →
        is_InvalidIdentifier e = false)
  ∧ ∃ e, __init__ (str_of "12345") (Num (PyInt 0)) ∅ = Raise e
         ∧ is_InvalidIdentifier e = true.
Proof.
  split.
  - apply (proj1 (identifier_accepted_iff (str_of "123456789")
                    (Num (PyInt (-1))) ∅)). split; reflexivity.
  - apply (proj1 (proj2 (identifier_accepted_iff (str_of "12345")
                           (Num (PyInt 0)) ∅))).
    intros [Hlen _]. discriminate Hlen.
Defined.

(** ** C5: the insufficient-funds boundary *)

(** Withdrawing an amount whose value is that of the balance leaves a
    zero, at two places when the balance was at two places. *)
Lemma sub_equal_value (b : Decimal) (a : N) (vd vb : Q) :
  0 < Z.of_N a →
  value (Fin false a (-2)) = Some vd → value b = Some vb → (vd == vb)%Q →
  ∃ s e, Dec.sub b (Fin false a (-2)) = Ok (Fin s 0 e)
         ∧ (∀ sb cb, b = Fin sb cb (-2) → s = false ∧ e = -2).
Proof.
  intros Ha Hvd Hvb Heq.
  destruct b as [sb cb eb| |]; [|discriminate..].
  pose proof (value_eq_aligned false a (-2) sb cb eb vd vb Hvd Hvb Heq) as Hal.
  change (Dec.sub (Fin sb cb eb) (Fin false a (-2)))
    with (Ok (add_fin sb cb eb true a (-2))).
  unfold add_fin. rewrite (Z.min_comm (-2) eb) in Hal.
  set (e0 := Z.min eb (-2)) in *. simpl (signed false _) in Hal.
  simpl (signed true _). rewrite <- Hal, Z.add_opp_diag_r. simpl.
  rewrite fix_small by reflexivity.
  exists (sb && true), e0. split; [reflexivity|].
  intros sb' cb' [= -> -> ->]. split; [|reflexivity].
  pose proof (proj2 (aligned_pos a (-2) e0 ltac:(lia)) Ha).
  pose proof (aligned_nonneg cb' (-2) e0 ltac:(lia)).
  destruct sb'; simpl in *; [lia|reflexivity].
Qed.

(** C5: on every account the class has built and for every amount that
    passes validation, [withdraw] fails with InsufficientFunds exactly
    when the validated amount is greater than the balance, and then
    leaves the state unchanged; for a balance that is a number, that is
    exactly when its value exceeds the value of the balance; withdrawing
    an amount equal to the balance returns and leaves a zero balance
    (0.00 when the balance was at two places); withdrawing the balance
    plus 0.01 fails with InsufficientFunds. *)
Theorem withdraw_boundary (st : state) (amount : pyval) (now : string)
    (d : Decimal) :
  wf_state st = true →
  _validate_amount amount = Ok d →
  ((withdraw amount now st).1 = Raise InsufficientFunds
   ↔ Dec.gt d (_balance (self st)) = Ok true)
  ∧ ((withdraw amount now st).1 = Raise InsufficientFunds →
     (withdraw amount now st).2 = st)
  ∧ ∀ vd vb : Q,
      value d = Some vd → value (_balance (self st)) = Some vb →
      (Dec.gt d (_balance (self st)) = Ok true ↔ (vb < vd)%Q)
      ∧ ((vd == vb)%Q →
         ∃ st' s e,
           withdraw amount now st = (Ok true, st')
           ∧ _balance (self st') = Fin s 0 e
           ∧ (∀ sb cb, _balance (self st) = Fin sb cb (-2) →
                _balance (self st') = Fin false 0 (-2)))
      ∧ ((vd == vb + (1 # 100))%Q →
         withdraw amount now st = (Raise InsufficientFunds, st)).
Proof.
  intros Hwf Hval.
  pose proof (perform_cases (Withdraw amount now) st Hwf) as Hcases.
  simpl in Hcases. rewrite Hval in Hcases.
  assert (Hiff : (withdraw amount now st).1 = Raise InsufficientFunds
                 ↔ Dec.gt d (_balance (self st)) = Ok true).
  { rewrite withdraw_unfold, Hval.
    destruct (Dec.gt d _) as [[|]|e] eqn:Hgt.
    - done.
    - split; [|discriminate].
      destruct (Dec.sub _ d) as [b'|e] eqn:Hsub.
      + destruct (_record_transaction _ _ _ _) as [[|] ?] eqn:Hrec;
          [discriminate|].
        destruct (record_transaction_spec (with_balance st b')
                    "withdrawal" d now Hwf) as (st' & Hrec' & _).
        rewrite Hrec in Hrec'. discriminate.
      + apply sub_raises in Hsub as ->. discriminate.
    - apply gt_raises in Hgt as ->. split; discriminate. }
  assert (Hfail : Dec.gt d (_balance (self st)) = Ok true →
                  withdraw amount now st = (Raise InsufficientFunds, st)).
  { intros Hgt. by rewrite withdraw_unfold, Hval, Hgt. }
  split; [exact Hiff|]. split.
  { intros H. apply Hiff in H. by rewrite (Hfail H). }
  intros vd vb Hvd Hvb.
  destruct (gt_value d (_balance (self st)) vd vb Hvd Hvb) as [Hgt Hle].
  split; [exact Hgt|]. split.
  - intros Heq.
    assert (Hng : Dec.gt d (_balance (self st)) = Ok false).
    { apply Hle. rewrite Heq. apply Qle_refl. }
    pose proof Hval as Hinv. apply validate_inv in Hinv as (a & -> & Ha).
    destruct (sub_equal_value (_balance (self st)) a vd vb ltac:(lia)
                Hvd Hvb Heq) as (s & e & Hsub & Hrepr).
    destruct Hcases
      as [(e' & _ & [?|(d' & [= <-] & Hnew)])
         |(d' & b' & st' & [= <-] & Hnew & Hp & Hself & _ & _)];
      [discriminate|rewrite Hng, Hsub in Hnew; discriminate|].
    rewrite Hng, Hsub in Hnew. injection Hnew as <-.
    exists st', s, e. split; [exact Hp|].
    rewrite Hself. simpl. split; [reflexivity|].
    intros sb cb Hb. by destruct (Hrepr sb cb Hb) as [-> ->].
  - intros Heq. apply Hfail, Hgt. rewrite Heq.
    rewrite <- (Qplus_0_r vb) at 1. by apply Qplus_lt_r.
Qed.

(** C5 at an account holding 0.10: withdrawing 0.11 fails with
    InsufficientFunds and changes nothing. *)
Lemma withdraw_boundary_witness :
  ∃ st0,
    __init__ (str_of "123456789") (Num (PyFloat (FNum false 1 (-1)))) ∅
    = Ok st0
    ∧ _validate_amount (Num (PyFloat (FNum false 11 (-2))))
      = Ok (Fin false 11 (-2))
    ∧ withdraw (Num (PyFloat (FNum false 11 (-2)))) "t" st0
      = (Raise InsufficientFunds, st0).
Proof.
  eexists. split; [vm_compute; reflexivity|]. split; [vm_compute; reflexivity|].
  match goal with
  | |- withdraw ?a ?n ?st = _ =>
      destruct (withdraw_boundary st a n (Fin false 11 (-2))) as (_ & _ & Hv)
  end.
  - vm_compute; reflexivity.
  - vm_compute; reflexivity.
  - destruct (Hv (11 # 100)%Q (10 # 100)%Q) as (_ & _ & Hplus).
    + vm_compute; reflexivity.
    + vm_compute; reflexivity.
    + apply Hplus. vm_compute; reflexivity.
Defined.

(** ** C9: the history is handed out as a copy *)

Lemma run_cons (c : call) (cs : list call) (st : state) :
  run (c :: cs) st = run cs (after st c).
Proof. reflexivity. Qed.

(** The log of a run is the log before it followed by the transactions
    of the calls that returned, in call order. *)
Lemma history_successful (cs : list call) (st : state) :
  wf_state st = true → history (run cs st) = history st ++ successful cs st.
Proof.
  revert st. induction cs as [|c cs IH]; intros st Hwf.
  { simpl. by rewrite app_nil_r. }
  rewrite run_cons, (IH _ (after_wf c st Hwf)). simpl successful.
  unfold after.
  destruct (perform_cases c st Hwf)
    as [(e & -> & _)|(d & b' & st' & -> & _ & -> & _ & _ & Hlog)];
    simpl; [reflexivity|].
  by rewrite Hlog, <- app_assoc.
Qed.

(** Reading a list of dictionaries in a store that agrees with [h] on
    every object other than [r], where [r] is not an object of [h]. *)
Lemma read_list_frame (h h' : gmap loc obj) (l r : loc) (items : list loc) :
  is_log h l items → h !! r = None →
  (∀ i o, i ≠ r → h !! i = Some o → h' !! i = Some o) →
  read_list h' l = read_list h l.
Proof.
  intros [Hl Hall] Hr Hagree.
  assert (Hne : ∀ i o, h !! i = Some o → i ≠ r) by (intros i o Hi ->; congruence).
  rewrite (read_list_log h l items Hl).
  rewrite (read_list_log h' l items)
    by (eapply Hagree; [by eapply Hne|exact Hl]).
  apply omap_read_dict_agree; [exact Hall|].
  intros i [d Hi]. rewrite Hi. unfold read_dict in *.
  destruct (h !! i) as [[|d']|] eqn:Hhi; try discriminate.
  by rewrite (Hagree i (ODict d') (Hne _ _ Hhi) Hhi).
Qed.

(** [get_transaction_history] on a well-formed state allocates one new
    list object, holding the items of the log, and touches nothing
    else. *)
Lemma get_transaction_history_spec (st : state) :
  wf_state st = true →
  ∃ items,
    is_log (store st) (_transaction_history (self st)) items
    ∧ get_transaction_history st =
        (Ok (fresh (dom (store st))),
         mkState (self st)
           (<[fresh (dom (store st)) := OList items]> (store st))).
Proof.
  intros Hwf. apply wf_state_spec in Hwf as (items & Hlog).
  exists items. split; [exact Hlog|]. destruct Hlog as [Hl _].
  unfold get_transaction_history, mbind, M_bind, get_history_ref, list_copy.
  simpl. by rewrite Hl.
Qed.

(** C9, as stated, fails: the returned list is not independent of the
    log.  After a deposit of 50 the first transaction of the log has the
    amount 50.00; the returned list holds that very dictionary, and
    rebinding its key ['amount'] to 0.00 through the returned list makes
    the log of the account read 0.00. *)
Lemma returned_transactions_are_shared :
  ∃ st0 st r st' t d,
    __init__ (str_of "123456789") (Num (PyInt 100)) ∅ = Ok st0
    ∧ st = run [Deposit (Num (PyInt 50)) "t1"] st0
    ∧ get_transaction_history st = (Ok r, st')
    ∧ store st' !! r = Some (OList [t])
    ∧ store st' !! t = Some (ODict d)
    ∧ (history st !! 0%nat) ≫= (λ tx, tx !! "amount")
      = Some (DDec (Fin false 5000 (-2)))
    ∧ (read_list
         (<[t := ODict (<["amount" := DDec (Fin false 0 (-2))]> d)]> (store st'))
         (_transaction_history (self st)) !! 0%nat) ≫= (λ tx, tx !! "amount")
      = Some (DDec (Fin false 0 (-2))).
Proof.
  do 6 eexists. split; [vm_compute; reflexivity|]. split; [reflexivity|].
  do 4 (split; [vm_compute; reflexivity|]).
  vm_compute; reflexivity.
Qed.

(** C9, amended: on every account reachable from construction by
    deposit and withdraw calls, the history is exactly the transactions
    of the calls that returned, in call order; [get_transaction_history]
    returns a new list object that holds the very items of the log (a
    shallow copy) and so reads as this full log; the call changes no
    existing object and no attribute of the account; and however the
    returned list object itself is changed afterwards (items appended,
    removed or replaced, new objects allocated), the log of the account
    reads as before.  Nothing is said of writes into the transaction
    dictionaries, which the two lists share. *)
Theorem history_is_shallow_copy (number : pystr) (v : pyval)
    (h : gmap loc obj) (st0 : state) (cs : list call) :
  __init__ number v h = Ok st0 →
  history (run cs st0) = successful cs st0
  ∧ ∃ r st' items,
      get_transaction_history (run cs st0) = (Ok r, st')
      ∧ store (run cs st0) !! r = None
      ∧ store (run cs st0) !! _transaction_history (self (run cs st0))
        = Some (OList items)
      ∧ store st' !! r = Some (OList items)
      ∧ self st' = self (run cs st0)
      ∧ (∀ l, l ≠ r → store st' !! l = store (run cs st0) !! l)
      ∧ history st' = history (run cs st0)
      ∧ read_list (store st') r = history (run cs st0)
      ∧ ∀ h' : gmap loc obj,
          (∀ l o, l ≠ r → store st' !! l = Some o → h' !! l = Some o) →
          read_list h' (_transaction_history (self (run cs st0)))
          = history (run cs st0).
Proof.
  intros Hinit.
  apply init_inv in Hinit as (_ & _ & _ & _ & _ & Hwf0 & Hhist0).
  split; [by rewrite (history_successful cs st0 Hwf0), Hhist0|].
  pose proof (run_wf cs st0 Hwf0) as Hwf. set (st := run cs st0) in *.
  destruct (get_transaction_history_spec st Hwf) as (items & Hlog & Hget).
  set (r := fresh (dom (store st))) in *.
  assert (Hr : store st !! r = None)
    by (apply not_elem_of_dom, is_fresh).
  assert (Hframe : ∀ h' : gmap loc obj,
            (∀ l o, l ≠ r → <[r := OList items]> (store st) !! l = Some o →
                    h' !! l = Some o) →
            read_list h' (_transaction_history (self st)) = history st).
  { intros h' Hagree. apply (read_list_frame _ _ _ r items Hlog Hr).
    intros i o Hi Ho. apply Hagree; [exact Hi|]. by rewrite lookup_insert_ne. }
  exists r, (mkState (self st) (<[r := OList items]> (store st))), items.
  split; [exact Hget|]. simpl.
  split; [exact Hr|]. split; [exact (proj1 Hlog)|].
  split; [apply lookup_insert_eq|]. split; [reflexivity|].
  split; [by intros l Hl; rewrite lookup_insert_ne|].
  split; [by apply Hframe|].
  split; [|exact Hframe].
  unfold history. destruct Hlog as [Hl Hall].
  rewrite (read_list_log _ r items) by apply lookup_insert_eq.
  rewrite (read_list_log _ _ items Hl).
  apply omap_read_dict_agree; [exact Hall|].
  intros i Hi. by apply read_dict_alloc.
Qed.

(** The amended C9 on the scripted sequence deposit 50, withdraw 20,
    deposit 30 on a balance of 100, with a withdrawal of 1000 that fails
    in between. *)
Lemma history_is_shallow_copy_witness :
  ∃ st0,
    __init__ (str_of "123456789") (Num (PyInt 100)) ∅ = Ok st0
    ∧ history
        (run [Deposit (Num (PyInt 50)) "t1"; Withdraw (Num (PyInt 1000)) "t2";
              Withdraw (Num (PyInt 20)) "t3"; Deposit (Num (PyInt 30)) "t4"]
           st0)
      = successful
          [Deposit (Num (PyInt 50)) "t1"; Withdraw (Num (PyInt 1000)) "t2";
           Withdraw (Num (PyInt 20)) "t3"; Deposit (Num (PyInt 30)) "t4"]
          st0.
Proof.
  eexists. split; [vm_compute; reflexivity|].
  match goal with
  | |- history (run ?cs ?st0) = _ =>
      destruct (history_is_shallow_copy (str_of "123456789")
                  (Num (PyInt 100)) ∅ st0 cs) as [Hlog _]
  end.
  - vm_compute; reflexivity.
  - exact Hlog.
Defined.

(** * Further properties of the class *)

(** ** The attributes of the account *)

Lemma after_attributes (c : call) (st : state) :
  wf_state st = true →
  account_number (self (after st c)) = account_number (self st)
  ∧ _transaction_history (self (after st c)) = _transaction_history (self st).
Proof.
  intros Hwf. unfold after.
  destruct (perform_cases c st Hwf)
    as [(e & -> & _)|(d & b' & st' & _ & _ & -> & Hself & _ & _)];
    [done|]. simpl. by rewrite Hself.
Qed.

(** X1: the account number given to the constructor is the account
    number of the account after any sequence of deposit and withdraw
    calls, and the attribute holding the history never refers to another
    list: only the balance attribute is ever rebound. *)
Theorem account_number_is_fixed (number : pystr) (v : pyval)
    (h : gmap loc obj) (st0 : state) (cs : list call) :
  __init__ number v h = Ok st0 →
  account_number (self (run cs st0)) = number
  ∧ _transaction_history (self (run cs st0)) = _transaction_history (self st0).
Proof.
  intros Hinit.
  apply init_inv in Hinit as (_ & _ & _ & _ & Hnum & Hwf & _).
  induction cs as [|c cs [IH1 IH2]] using rev_ind; [done|].
  rewrite run_snoc.
  destruct (after_attributes c (run cs st0) (run_wf cs st0 Hwf)) as [-> ->].
  done.
Qed.

(** X1 at an account numbered 123456789, after a deposit and a failed withdrawal. *)
Lemma account_number_is_fixed_witness :
  ∃ st0,
    __init__ (str_of "123456789") (Num (PyInt 100)) ∅ = Ok st0
    ∧ account_number
        (self (run [Deposit (Num (PyInt 50)) "t1";
                    Withdraw (Num (PyInt 1000)) "t2"] st0))
      = str_of "123456789".
Proof.
  eexists. split; [vm_compute; reflexivity|].
  match goal with
  | |- account_number (self (run ?cs ?st0)) = _ =>
      destruct (account_number_is_fixed (str_of "123456789")
                  (Num (PyInt 100)) ∅ st0 cs) as [Hn _]
  end.
  - vm_compute; reflexivity.
  - exact Hn.
Defined.

(** ** The shape of the log *)

Lemma transaction_of_is_transaction (c : call) (d : Decimal) :
  _validate_amount (amount_arg c) = Ok d → is_transaction (transaction_of c d).
Proof.
  intros Hval. apply validate_inv in Hval as (a & -> & Ha).
  destruct c as [amount now|amount now].
  - exists "deposit", a, now. by split; [left|].
  - exists "withdrawal", a, now. by split; [right|].
Qed.

(** X2: the log is append-only.  On an account the class has built, a
    call that returns appends exactly one transaction dictionary (its
    type, its validated amount, its timestamp) and a call that raises
    appends none; so the log before any sequence of calls is a prefix of
    the log after it. *)
Theorem history_is_append_only (st : state) (c : call) (cs : list call) :
  wf_state st = true →
  match (perform c st).1 with
  | Ok _ => ∃ t, is_transaction t ∧ history (after st c) = history st ++ [t]
  | Raise _ => history (after st c) = history st
  end
  ∧ history st `prefix_of` history (run cs st).
Proof.
  intros Hwf. split.
  - unfold after.
    destruct (perform_cases c st Hwf)
      as [(e & -> & _)|(d & b' & st' & Hval & _ & -> & _ & _ & Hlog)]; simpl.
    + reflexivity.
    + exists (transaction_of c d). split; [|exact Hlog].
      by apply transaction_of_is_transaction.
  - rewrite (history_successful cs st Hwf). by apply prefix_app_r.
Qed.

(** X2 at an account opened with 100, after a deposit and a failed withdrawal. *)
Lemma history_is_append_only_witness :
  ∃ st0,
    __init__ (str_of "123456789") (Num (PyInt 100)) ∅ = Ok st0
    ∧ history st0
      `prefix_of` history (run [Deposit (Num (PyInt 50)) "t1";
                                Withdraw (Num (PyInt 1000)) "t2"] st0).
Proof.
  eexists. split; [vm_compute; reflexivity|].
  match goal with
  | |- history ?st0 `prefix_of` history (run ?cs ?st0) =>
      destruct (history_is_append_only st0 (Deposit (Num (PyInt 50)) "t1") cs)
        as [_ Hp]
  end.
  - vm_compute; reflexivity.
  - exact Hp.
Defined.

Lemma successful_transactions (cs : list call) (st : state) :
  Forall is_transaction (successful cs st).
Proof.
  revert st. induction cs as [|c cs IH]; intros st; [constructor|].
  simpl. destruct (perform c st).1; [|apply IH].
  destruct (_validate_amount (amount_arg c)) as [d|] eqn:Hval; [|apply IH].
  constructor; [by apply transaction_of_is_transaction|apply IH].
Qed.

(** X3: every entry of the history of an account, after construction and
    any sequence of deposit and withdraw calls, is a dictionary with
    exactly the keys 'type', 'amount' and 'timestamp', whose type is
    'deposit' or 'withdrawal' and whose amount is a strictly positive
    decimal at two places of at most 28 digits. *)
Theorem recorded_transactions_are_well_formed (number : pystr) (v : pyval)
    (h : gmap loc obj) (st0 : state) (cs : list call) :
  __init__ number v h = Ok st0 →
  Forall is_transaction (history (run cs st0)).
Proof.
  intros Hinit.
  apply init_inv in Hinit as (_ & _ & _ & _ & _ & Hwf & Hhist).
  rewrite (history_successful cs st0 Hwf), Hhist. simpl.
  apply successful_transactions.
Qed.

(** X3 at an account opened with 100, after a deposit and a failed withdrawal. *)
Lemma recorded_transactions_are_well_formed_witness :
  ∃ st0,
    __init__ (str_of "123456789") (Num (PyInt 100)) ∅ = Ok st0
    ∧ Forall is_transaction
        (history (run [Deposit (Num (PyInt 50)) "t1";
                       Withdraw (Num (PyInt 1000)) "t2"] st0)).
Proof.
  eexists. split; [vm_compute; reflexivity|].
  apply (recorded_transactions_are_well_formed (str_of "123456789")
           (Num (PyInt 100)) ∅).
  vm_compute; reflexivity.
Defined.

(** ** When a call returns *)

(** The balance of an account the class has built is a finite decimal
    not below zero, or the quiet NaN. *)
Lemma reachable_balance (number : pystr) (v : pyval) (h : gmap loc obj)
    (st0 : state) (cs : list call) :
  __init__ number v h = Ok st0 →
  fin_nonneg (_balance (self (run cs st0)))
  ∨ _balance (self (run cs st0)) = NaN false false.
Proof.
  intros Hinit. pose proof Hinit as Hi.
  apply init_inv in Hi as (_ & _ & _ & _ & _ & Hwf & _).
  destruct (init_balance_cases _ _ _ _ Hinit)
    as [(s & c & Hb & Hs & _)|[_ Hb]].
  - left. apply run_fin_nonneg; [exact Hwf|]. rewrite Hb. by exists s, c, (-2).
  - right. by apply run_nan_balance.
Qed.

(** X4: on an account reached from construction by deposit and withdraw
    calls, [deposit] can fail in validation only: it returns [True]
    exactly when the amount validates, and otherwise raises what the
    validation raised. *)
Theorem deposit_returns_iff_valid (number : pystr) (v : pyval)
    (h : gmap loc obj) (st0 : state) (cs : list call)
    (amount : pyval) (now : string) :
  __init__ number v h = Ok st0 →
  ((deposit amount now (run cs st0)).1 = Ok true
   ↔ ∃ d, _validate_amount amount = Ok d)
  ∧ ∀ e, (deposit amount now (run cs st0)).1 = Raise e
         ↔ _validate_amount amount = Raise e.
Proof.
  intros Hinit.
  pose proof (reachable_balance _ _ _ _ cs Hinit) as Hbal.
  apply init_inv in Hinit as (_ & _ & _ & _ & _ & Hwf & _).
  pose proof (run_wf cs st0 Hwf) as Hwf'. set (st := run cs st0) in *.
  rewrite deposit_unfold.
  destruct (_validate_amount amount) as [d|e0] eqn:Hval.
  - assert (Hadd : ∃ b', Dec.add (_balance (self st)) d = Ok b').
    { apply validate_inv in Hval as (a & -> & Ha).
      destruct Hbal as [Hfin| ->]; [|by eexists].
      destruct (add_fin_nonneg _ a Hfin ltac:(lia)) as (c' & e' & ->).
      by eexists. }
    destruct Hadd as [b' ->].
    destruct (record_transaction_spec (with_balance st b') "deposit" d now Hwf')
      as (st' & -> & _).
    simpl. split; [split; [by eauto|reflexivity]|].
    intros e. split; intros; discriminate.
  - simpl. split; [split; [discriminate|by intros [? ?]]|].
    intros e. split; intros [= <-]; reflexivity.
Qed.

(** X4 at a deposit of -5.0, which raises what validation raises. *)
Lemma deposit_returns_iff_valid_witness :
  ∃ st0,
    __init__ (str_of "123456789") (Num (PyInt 100)) ∅ = Ok st0
    ∧ (deposit (Num (PyFloat (FNum true 5 0))) "t2"
         (run [Deposit (Num (PyInt 50)) "t1"] st0)).1
      = Raise NonPositiveAmount.
Proof.
  eexists. split; [vm_compute; reflexivity|].
  match goal with
  | |- (deposit ?a ?n (run ?cs ?st0)).1 = _ =>
      destruct (deposit_returns_iff_valid (str_of "123456789")
                  (Num (PyInt 100)) ∅ st0 cs a n) as [_ Hr]
  end.
  - vm_compute; reflexivity.
  - apply Hr. vm_compute; reflexivity.
Defined.

(** X5: on an account built from an initial balance other than the float
    NaN, [withdraw] returns [True] exactly when the amount validates and
    the validated amount does not exceed the balance, as exact values. *)
Theorem withdraw_returns_iff_covered (number : pystr) (v : pyval)
    (h : gmap loc obj) (st0 : state) (cs : list call)
    (amount : pyval) (now : string) :
  __init__ number v h = Ok st0 → v ≠ Num (PyFloat FNan) →
  (withdraw amount now (run cs st0)).1 = Ok true
  ↔ ∃ (d : Decimal) (vd vb : Q),
      _validate_amount amount = Ok d
      ∧ value d = Some vd
      ∧ value (_balance (self (run cs st0))) = Some vb
      ∧ (vd <= vb)%Q.
Proof.
  intros Hinit Hv.
  destruct (reachable_balance _ _ _ _ cs Hinit) as [Hfin|Hnan].
  2:{ destruct (init_balance_cases _ _ _ _ Hinit)
        as [(s & c & Hb & Hs & _)|[-> _]]; [|done].
      apply init_inv in Hinit as (_ & _ & _ & _ & _ & Hwf & _).
      assert (Hf : fin_nonneg (_balance (self (run cs st0)))).
      { apply run_fin_nonneg; [exact Hwf|]. rewrite Hb. by exists s, c, (-2). }
      rewrite Hnan in Hf. by destruct Hf as (? & ? & ? & ? & _). }
  apply init_inv in Hinit as (_ & _ & _ & _ & _ & Hwf & _).
  pose proof (run_wf cs st0 Hwf) as Hwf'. set (st := run cs st0) in *.
  rewrite withdraw_unfold.
  destruct (_validate_amount amount) as [d|e0] eqn:Hval.
  2:{ simpl. split; [discriminate|]. by intros (? & ? & ? & ? & _). }
  pose proof Hval as Hinv. apply validate_inv in Hinv as (a & -> & Ha).
  pose proof Hfin as (sb & cb & eb & Hb & Hsb).
  assert (Hvb : ∃ vb, value (_balance (self st)) = Some vb)
    by (rewrite Hb; by eexists).
  destruct Hvb as [vb Hvb].
  assert (Hvd : ∃ vd, value (Fin false a (-2)) = Some vd) by by eexists.
  destruct Hvd as [vd Hvd].
  destruct (gt_value _ _ vd vb Hvd Hvb) as [Hgt Hle].
  destruct (Dec.gt (Fin false a (-2)) (_balance (self st))) as [[|]|e]
    eqn:Hcmp.
  - simpl. split; [discriminate|].
    intros (d' & vd' & vb' & [= <-] & Hvd' & Hvb' & Hle').
    rewrite Hvd in Hvd'. rewrite Hvb in Hvb'.
    injection Hvd' as <-. injection Hvb' as <-.
    exfalso. apply (Qlt_not_le vb vd); [by apply Hgt|exact Hle'].
  - destruct (sub_fin_nonneg _ a Hfin Hcmp) as (b' & -> & _).
    destruct (record_transaction_spec (with_balance st b') "withdrawal"
                (Fin false a (-2)) now Hwf') as (st' & -> & _).
    simpl. split; [|reflexivity].
    intros _. exists (Fin false a (-2)), vd, vb.
    split; [reflexivity|]. split; [exact Hvd|]. split; [exact Hvb|].
    by apply Hle.
  - rewrite Hb in Hcmp. rewrite gt_fin in Hcmp. discriminate.
Qed.

(** X5 at a withdrawal of the whole balance of 150. *)
Lemma withdraw_returns_iff_covered_witness :
  ∃ st0,
    __init__ (str_of "123456789") (Num (PyInt 100)) ∅ = Ok st0
    ∧ (withdraw (Num (PyInt 150)) "t2"
         (run [Deposit (Num (PyInt 50)) "t1"] st0)).1 = Ok true.
Proof.
  eexists. split; [vm_compute; reflexivity|].
  match goal with
  | |- (withdraw ?a ?n (run ?cs ?st0)).1 = _ =>
      apply (withdraw_returns_iff_covered (str_of "123456789")
               (Num (PyInt 100)) ∅ st0 cs a n)
  end.
  - vm_compute; reflexivity.
  - discriminate.
  - exists (Fin false 15000 (-2)), (15000 # 100)%Q, (15000 # 100)%Q.
    split; [vm_compute; reflexivity|]. split; [vm_compute; reflexivity|].
    split; [vm_compute; reflexivity|]. apply Qle_refl.
Defined.

(** ** Composing calls *)

(** X6: a deposit followed by a withdrawal of the same amount restores
    the balance.  On an account the class has built whose balance is a
    non-negative number of cents, for an amount that validates and keeps
    the sum within the 28 digits of the context, both calls return
    [True], the balance in between is the sum, the final balance is the
    original number of cents, and the log has grown by the deposit and
    the withdrawal, in this order. *)
Theorem deposit_then_withdraw_restores_balance (st : state)
    (amount : pyval) (t1 t2 : string) (s : bool) (b a : N) :
  wf_state st = true →
  _balance (self st) = Fin s b (-2) → s = false ∨ b = 0%N →
  _validate_amount amount = Ok (Fin false a (-2)) →
  Z.of_N b + Z.of_N a < 10 ^ prec →
  ∃ st1 st2,
    deposit amount t1 st = (Ok true, st1)
    ∧ withdraw amount t2 st1 = (Ok true, st2)
    ∧ _balance (self st1) = Fin false (b + a) (-2)
    ∧ _balance (self st2) = Fin false b (-2)
    ∧ history st2
      = history st
        ++ [transaction_of (Deposit amount t1) (Fin false a (-2));
            transaction_of (Withdraw amount t2) (Fin false a (-2))].
Proof.
  intros Hwf Hb Hs Hval Hfit.
  pose proof Hval as Hinv. apply validate_inv in Hinv as (a' & [= <-] & Ha).
  destruct (perform_cases (Deposit amount t1) st Hwf)
    as [(e & _ & [Hr|(d & Hd & Hr)])
       |(d & b1 & st1 & Hd & Hnew & Hp & Hself & Hwf1 & Hlog1)];
    simpl in *.
  { congruence. }
  { rewrite Hval in Hd. injection Hd as <-.
    rewrite Hb, add_scale2 in Hr by (done || lia). discriminate. }
  rewrite Hval in Hd. injection Hd as <-.
  rewrite Hb, add_scale2 in Hnew by (done || lia). injection Hnew as <-.
  assert (Hb1 : _balance (self st1) = Fin false (b + a) (-2))
    by by rewrite Hself.
  destruct (perform_cases (Withdraw amount t2) st1 Hwf1)
    as [(e & _ & [Hr|(d & Hd & Hr)])
       |(d & b2 & st2 & Hd & Hnew & Hp2 & Hself2 & _ & Hlog2)];
    simpl in *.
  { congruence. }
  { rewrite Hval in Hd. injection Hd as <-.
    rewrite Hb1, gt_scale2 in Hr by by left.
    destruct (Z.ltb_spec (Z.of_N (b + a)) (Z.of_N a)); [lia|].
    rewrite sub_scale2 in Hr by (by left || lia). discriminate. }
  rewrite Hval in Hd. injection Hd as <-.
  rewrite Hb1, gt_scale2 in Hnew by by left.
  destruct (Z.ltb_spec (Z.of_N (b + a)) (Z.of_N a)); [lia|].
  rewrite sub_scale2 in Hnew by (by left || lia). injection Hnew as <-.
  exists st1, st2. split; [exact Hp|]. split; [exact Hp2|].
  split; [exact Hb1|]. split.
  - rewrite Hself2. simpl. f_equal. lia.
  - by rewrite Hlog2, Hlog1, <- app_assoc.
Qed.

(** X6 at a deposit and a withdrawal of the float 10.999 on a balance of 100. *)
Lemma deposit_then_withdraw_restores_balance_witness :
  ∃ st0,
    __init__ (str_of "123456789") (Num (PyInt 100)) ∅ = Ok st0
    ∧ ∃ st1 st2,
        deposit (Num (PyFloat (FNum false 10999 (-3)))) "t1" st0 = (Ok true, st1)
        ∧ withdraw (Num (PyFloat (FNum false 10999 (-3)))) "t2" st1
          = (Ok true, st2)
        ∧ _balance (self st2) = Fin false 10000 (-2).
Proof.
  eexists. split; [vm_compute; reflexivity|].
  match goal with
  | |- ∃ st1 st2, deposit ?am ?t1 ?st0 = _ ∧ withdraw _ ?t2 _ = _ ∧ _ =>
      destruct (deposit_then_withdraw_restores_balance st0 am t1 t2
                  false 10000 1100)
        as (st1 & st2 & H1 & H2 & _ & H3 & _)
  end.
  - vm_compute; reflexivity.
  - vm_compute; reflexivity.
  - by left.
  - vm_compute; reflexivity.
  - vm_compute; reflexivity.
  - exists st1, st2. split; [exact H1|]. split; [exact H2|exact H3].
Defined.

(** ** What validation accepts *)

Lemma Qcents_le (x y d : Z) :
  0 < d →
  ((x # 200) * inject_Z d <= inject_Z y * (1 # 100))%Q ↔ x * d ≤ 2 * y.
Proof.
  intros Hd. unfold Qle, Qmult, inject_Z. cbn [Qnum Qden]. lia.
Qed.

Lemma Qcents_lt (x y d : Z) :
  0 < d →
  (inject_Z y * (1 # 100) < (x # 200) * inject_Z d)%Q ↔ 2 * y < x * d.
Proof.
  intros Hd. unfold Qlt, Qmult, inject_Z. cbn [Qnum Qden]. lia.
Qed.

(** X8: the threshold of validation is half a cent.  A finite input of
    positive sign and of value below 10^26 - 0.005 validates exactly when
    its value is at least 0.005: 0.005 itself is accepted (and becomes
    0.01), anything smaller is rejected. *)
Theorem validate_accepts_from_half_a_cent (n : pynum) (c : N) (e : Z)
    (v : Q) :
  Decimal_of_str n = Ok (Fin false c e) →
  value (Fin false c e) = Some v →
  (v < (2 * 10 ^ 28 - 1) # 200)%Q →
  (∃ d, _validate_amount (Num n) = Ok d) ↔ (1 # 200 <= v)%Q.
Proof.
  intros Hn [= <-] Hlt. simpl signed in *.
  pose proof (pow10_pos (Z.max 0 (-2 - e)) ltac:(lia)) as Hdown.
  set (down := 10 ^ Z.max 0 (-2 - e)) in *.
  pose proof (value_in_cents (Z.of_N c) e) as Hv. fold down in Hv.
  pose proof (rescale_half_up_spec (Z.of_N c) e (-2) ltac:(lia)) as Hr.
  unfold is_half_up in Hr. fold down in Hr.
  set (x := Z.of_N c * 10 ^ Z.max 0 (e - -2)) in *.
  set (r := rescale_half_up (Z.of_N c) e (-2)) in *.
  assert (HdQ : (0 < inject_Z down)%Q).
  { change (inject_Z 0 < inject_Z down)%Q. by rewrite <- Zlt_Qlt. }
  assert (Hx : 2 * x < (2 * 10 ^ 28 - 1) * down).
  { apply (Qcents_lt _ _ _ Hdown). rewrite <- Hv.
    by apply Qmult_lt_r. }
  assert (Hfit : r < 10 ^ prec).
  { unfold prec. replace (2 * Z.of_N c * 10 ^ Z.max 0 (e - -2)) with (2 * x)
      in Hr by (unfold x; lia). nia. }
  rewrite (validate_fin n false c e Hn Hfit). fold r. simpl signed.
  rewrite <- (Qmult_le_r _ _ _ HdQ), Hv, (Qcents_le 1 x down Hdown).
  replace (2 * Z.of_N c * 10 ^ Z.max 0 (e - -2)) with (2 * x)
    in Hr by (unfold x; lia).
  destruct (Z.ltb_spec 0 r); split.
  - intros _. nia.
  - by eexists.
  - intros [? ?]. discriminate.
  - intros Hle. exfalso. nia.
Qed.

(** X8 at the amount 0.005. *)
Lemma validate_accepts_from_half_a_cent_witness :
  ∃ d, _validate_amount (Num (PyDecimal (Fin false 5 (-3)))) = Ok d.
Proof.
  apply (validate_accepts_from_half_a_cent (PyDecimal (Fin false 5 (-3)))
           5 (-3) (5 # 1000)%Q);
    [reflexivity|reflexivity|reflexivity|discriminate].
Defined.

(** X9: validation is exact on [int] and [Decimal] inputs of whole cents:
    when an [int], or a [Decimal] whose value is a whole number of
    hundredths, validates, the validated amount has exactly the value of
    the input. *)
Theorem validate_is_exact_at_two_places (n : pynum) (v : Q) (k : Z)
    (d : Decimal) :
  exact_value n = Some v → (v == k # 100)%Q →
  _validate_amount (Num n) = Ok d →
  ∃ vd, value d = Some vd ∧ (vd == v)%Q.
Proof.
  intros Hx Hk Hval.
  assert (Hp : printed_value n = Some v).
  { destruct n as [z|b|f|d0]; try done. }
  pose proof (rounds_half_up_to_exact v k Hk) as Hr.
  destruct (printed_value_decimal n v Hp)
    as (s & c & e & Hv & [Hd|(z & -> & _ & _ & _ & msg & Hd)]).
  2:{ unfold _validate_amount in Hval. rewrite Hd in Hval. discriminate. }
  apply (rounds_half_up_to_rescale s c e v k Hv) in Hr.
  destruct (Z.ltb_spec (rescale_half_up (Z.of_N c) e (-2)) (10 ^ prec))
    as [Hfit|Hbig].
  2:{ rewrite (validate_beyond_precision n s c e Hd Hbig) in Hval.
      discriminate. }
  rewrite (validate_fin n s c e Hd Hfit) in Hval.
  pose proof (rescale_half_up_nonneg (Z.of_N c) e (-2) ltac:(lia)) as Hnn.
  set (r := rescale_half_up (Z.of_N c) e (-2)) in *.
  destruct (Z.ltb_spec 0 (signed s r)) as [Hpos|]; [|discriminate].
  injection Hval as <-.
  apply signed_pos in Hpos as [-> Hpos]; [|exact Hnn]. simpl in Hr.
  eexists. split; [reflexivity|]. rewrite Hk, Z2N.id, <- Hr by exact Hnn.
  simpl signed. change (Qpower (inject_Z 10) (-2)) with (1 # 100)%Q.
  unfold Qeq, Qmult, inject_Z. cbn [Qnum Qden]. lia.
Qed.

(** X9 at the int 50 and at the Decimal 12.3. *)
Lemma validate_is_exact_at_two_places_witness :
  (∃ vd, value (Fin false 5000 (-2)) = Some vd ∧ (vd == inject_Z 50)%Q)
  ∧ ∃ vd, value (Fin false 1230 (-2)) = Some vd ∧ (vd == 123 # 10)%Q.
Proof.
  split.
  - apply (validate_is_exact_at_two_places (PyInt 50) (inject_Z 50) 5000
             (Fin false 5000 (-2))); reflexivity.
  - apply (validate_is_exact_at_two_places (PyDecimal (Fin false 123 (-1)))
             (123 # 10)%Q 1230 (Fin false 1230 (-2))); reflexivity.
Defined.

(** ** What construction builds *)



(** ** Calls leave the rest of the store alone *)

Lemma record_transaction_store (st : state) (ty : string) (d : Decimal)
    (now : string) (items : list loc) :
  store st !! _transaction_history (self st) = Some (OList items) →
  _record_transaction ty d now st =
    (Ok (),
     mkState (self st)
       (<[_transaction_history (self st)
            := OList (items ++ [fresh (dom (store st))])]>
          (<[fresh (dom (store st))
               := ODict {[ "type" := DStr ty; "amount" := DDec d;
                           "timestamp" := DStr now ]}]> (store st)))).
Proof.
  intros Hl.
  unfold _record_transaction, mbind, M_bind, alloc, get_history_ref,
    list_append. simpl.
  by rewrite (lookup_alloc_old _ _ _ _ Hl).
Qed.

(** A call changes no object other than the history list of its account;
    what it adds is new. *)
Lemma perform_store_frame (c : call) (st : state) (l : loc) (o : obj) :
  wf_state st = true →
  l ≠ _transaction_history (self st) →
  store st !! l = Some o → store (after st c) !! l = Some o.
Proof.
  intros Hwf Hl Ho.
  pose proof Hwf as Hlog. apply wf_state_spec in Hlog as (items & Hitems & _).
  assert (Hrec : ∀ ty d now b',
            store (_record_transaction ty d now (with_balance st b')).2 !! l
            = Some o).
  { intros ty d now b'.
    rewrite (record_transaction_store (with_balance st b') ty d now items)
      by exact Hitems.
    simpl. rewrite lookup_insert_ne by done.
    by apply lookup_alloc_old. }
  unfold after. destruct c as [amount now|amount now]; simpl.
  - rewrite deposit_unfold.
    destruct (_validate_amount amount) as [d|]; [|exact Ho].
    destruct (Dec.add _ d) as [b'|]; [|exact Ho].
    specialize (Hrec "deposit" d now b').
    by destruct (_record_transaction _ _ _ _) as [[|] ?].
  - rewrite withdraw_unfold.
    destruct (_validate_amount amount) as [d|]; [|exact Ho].
    destruct (Dec.gt d _) as [[|]|]; [exact Ho| |exact Ho].
    destruct (Dec.sub _ d) as [b'|]; [|exact Ho].
    specialize (Hrec "withdrawal" d now b').
    by destruct (_record_transaction _ _ _ _) as [[|] ?].
Qed.

(** A log reads the same in a store that keeps all objects but one list
    which is not the list of this log. *)
Lemma log_frame (h h' : gmap loc obj) (l r : loc) (items xs : list loc) :
  is_log h l items → l ≠ r → h !! r = Some (OList xs) →
  (∀ i o, i ≠ r → h !! i = Some o → h' !! i = Some o) →
  is_log h' l items ∧ read_list h' l = read_list h l.
Proof.
  intros [Hl Hall] Hne Hr Hagree.
  assert (Hl' : h' !! l = Some (OList items)) by by apply Hagree.
  destruct (omap_read_dict_agree h h' items Hall) as [E1 E2].
  { intros i [d Hi]. rewrite Hi. unfold read_dict in *.
    destruct (h !! i) as [[|d']|] eqn:Hhi; try discriminate.
    rewrite (Hagree i (ODict d')); [done| |exact Hhi].
    intros ->. congruence. }
  split; [by split|].
  by rewrite (read_list_log h' l items Hl'), (read_list_log h l items Hl).
Qed.

(** A call on one account leaves another account of the same store well
    formed, with the log it had. *)
Lemma other_account_frame (c : call) (a b : BankAccount) (h : gmap loc obj) :
  wf_state (mkState a h) = true → wf_state (mkState b h) = true →
  _transaction_history a ≠ _transaction_history b →
  wf_state (mkState b (store (after (mkState a h) c))) = true
  ∧ history (mkState b (store (after (mkState a h) c)))
    = history (mkState b h).
Proof.
  intros Ha Hb Hne.
  pose proof Ha as Hla. apply wf_state_spec in Hla as (xs & Hxs & _).
  pose proof Hb as Hlb. apply wf_state_spec in Hlb as (items & Hlog).
  simpl in *.
  destruct (log_frame h (store (after (mkState a h) c))
              (_transaction_history b) (_transaction_history a) items xs
              Hlog ltac:(done) Hxs) as [Hlog' Hread].
  { intros i o Hi Ho. by apply (perform_store_frame c (mkState a h)). }
  split; [|exact Hread].
  apply wf_state_spec. by exists items.
Qed.

(** What a call returns and what it does to the attributes and to the
    log depends on the account only, not on the rest of the store. *)
Lemma perform_depends_on_self (c : call) (st1 st2 : state) :
  wf_state st1 = true → wf_state st2 = true → self st1 = self st2 →
  (perform c st1).1 = (perform c st2).1
  ∧ self (after st1 c) = self (after st2 c)
  ∧ ∃ k, history (after st1 c) = history st1 ++ k
         ∧ history (after st2 c) = history st2 ++ k.
Proof.
  intros Hwf1 Hwf2 Hself. unfold after.
  destruct (perform_cases c st1 Hwf1)
    as [(e1 & -> & Hr1)|(d1 & b1 & st1' & Hv1 & Hn1 & -> & Hs1 & _ & Hl1)];
  destruct (perform_cases c st2 Hwf2)
    as [(e2 & -> & Hr2)|(d2 & b2 & st2' & Hv2 & Hn2 & -> & Hs2 & _ & Hl2)];
    simpl; rewrite <- ?Hself in *.
  - assert (e1 = e2) as ->.
    { destruct Hr1 as [Hr1|(d1 & Hd1 & Hr1)], Hr2 as [Hr2|(d2 & Hd2 & Hr2)];
        congruence. }
    split; [done|]. split; [done|]. exists []. by rewrite !app_nil_r.
  - exfalso. destruct Hr1 as [Hr1|(d1 & Hd1 & Hr1)]; congruence.
  - exfalso. destruct Hr2 as [Hr2|(d2 & Hd2 & Hr2)]; congruence.
  - assert (d1 = d2) as -> by congruence.
    assert (b1 = b2) as -> by congruence.
    split; [done|]. split.
    + rewrite Hs1, Hs2. unfold with_balance. by rewrite Hself.
    + by exists [transaction_of c d2].
Qed.

Lemma state_eta (st : state) : mkState (self st) (store st) = st.
Proof. by destruct st. Qed.

Lemma run_attributes (cs : list call) (st : state) :
  wf_state st = true →
  account_number (self (run cs st)) = account_number (self st)
  ∧ _transaction_history (self (run cs st)) = _transaction_history (self st).
Proof.
  intros Hwf. induction cs as [|c cs [IH1 IH2]] using rev_ind; [done|].
  rewrite run_snoc. unfold after.
  destruct (perform_cases c (run cs st) (run_wf cs st Hwf))
    as [(e & -> & _)|(d & b' & st' & _ & _ & -> & Hself & _ & _)];
    [done|]. simpl. by rewrite Hself.
Qed.

Lemma run_store_frame (cs : list call) (st : state) (l : loc) (o : obj) :
  wf_state st = true →
  l ≠ _transaction_history (self st) →
  store st !! l = Some o → store (run cs st) !! l = Some o.
Proof.
  intros Hwf Hl Ho. induction cs as [|c cs IH] using rev_ind; [exact Ho|].
  rewrite run_snoc.
  apply perform_store_frame; [by apply run_wf| |exact IH].
  by rewrite (proj2 (run_attributes cs st Hwf)).
Qed.

Lemma run_depends_on_self (cs : list call) (st1 st2 : state) :
  wf_state st1 = true → wf_state st2 = true → self st1 = self st2 →
  self (run cs st1) = self (run cs st2)
  ∧ ∃ k, history (run cs st1) = history st1 ++ k
         ∧ history (run cs st2) = history st2 ++ k.
Proof.
  revert st1 st2. induction cs as [|c cs IH]; intros st1 st2 Hwf1 Hwf2 Hself.
  { split; [done|]. exists []. by rewrite !app_nil_r. }
  rewrite !run_cons.
  destruct (perform_depends_on_self c st1 st2 Hwf1 Hwf2 Hself)
    as (_ & Hself' & k & Hk1 & Hk2).
  destruct (IH (after st1 c) (after st2 c) (after_wf c st1 Hwf1)
              (after_wf c st2 Hwf2) Hself') as (Hrun & k' & Hk1' & Hk2').
  split; [exact Hrun|]. exists (k ++ k').
  by rewrite Hk1', Hk2', Hk1, Hk2, <- !app_assoc.
Qed.

(** ** Several accounts *)

Lemma wf_accounts_spec (p : accounts) :
  wf_accounts p = true ↔
  wf_state (view First p) = true ∧ wf_state (view Second p) = true
  ∧ _transaction_history (first p) ≠ _transaction_history (second p).
Proof.
  unfold wf_accounts. rewrite !andb_true_iff, negb_true_iff.
  rewrite bool_decide_eq_false. tauto.
Qed.

Lemma view_other (w w' : who) (c : call) (p : accounts) :
  w' ≠ w →
  view w (call_on w' c p).2
  = mkState (account_of w p) (store (after (view w' p) c)).
Proof. by destruct w, w'. Qed.

Lemma view_same (w : who) (c : call) (p : accounts) :
  view w (call_on w c p).2 = after (view w p) c.
Proof. destruct w; unfold view, call_on, after; simpl; apply state_eta. Qed.

Lemma call_on_wf (w : who) (c : call) (p : accounts) :
  wf_accounts p = true → wf_accounts (call_on w c p).2 = true.
Proof.
  rewrite !wf_accounts_spec. intros (H1 & H2 & Hne).
  destruct w.
  - rewrite (view_same First), (view_other Second First) by done.
    destruct (other_account_frame c (first p) (second p) (objects p) H1 H2 Hne)
      as [Hwf _].
    split; [by apply after_wf|]. split; [exact Hwf|].
    pose proof (proj2 (after_attributes c (view First p) H1)) as Hh.
    unfold after, view in Hh. simpl in *. by rewrite Hh.
  - rewrite (view_same Second), (view_other First Second) by done.
    destruct (other_account_frame c (second p) (first p) (objects p) H2 H1
                ltac:(done)) as [Hwf _].
    split; [exact Hwf|]. split; [by apply after_wf|].
    pose proof (proj2 (after_attributes c (view Second p) H2)) as Hh.
    unfold after, view in Hh. simpl in *. by rewrite Hh.
Qed.

Lemma calls_to_cons (w : who) (op : who * call) (ops : list (who * call)) :
  calls_to w (op :: ops)
  = if decide (op.1 = w) then op.2 :: calls_to w ops else calls_to w ops.
Proof. unfold calls_to. simpl. by destruct (decide (op.1 = w)). Qed.

(** X10: calls on two accounts do not interfere.  For two accounts the
    class has built in one store, after any interleaving of deposit and
    withdraw calls addressed to one or the other, each account has
    exactly the attributes and the history that its own calls alone, in
    the same order, would have given it. *)
Theorem interleaved_calls_are_isolated (ops : list (who * call))
    (p : accounts) (w : who) :
  wf_accounts p = true →
  account_of w (run_on ops p) = self (run (calls_to w ops) (view w p))
  ∧ history (view w (run_on ops p))
    = history (run (calls_to w ops) (view w p)).
Proof.
  revert p. induction ops as [|[w' c] ops IH]; intros p Hwf; [done|].
  change (run_on ((w', c) :: ops) p) with (run_on ops (call_on w' c p).2).
  destruct (IH _ (call_on_wf w' c p Hwf)) as [IH1 IH2].
  rewrite IH1, IH2, calls_to_cons. cbn [fst snd].
  destruct (decide (w' = w)) as [->|Hne].
  - by rewrite run_cons, view_same.
  - rewrite (view_other w w' c p Hne).
    apply wf_accounts_spec in Hwf as (H1 & H2 & Hd).
    assert (Hframe :
      wf_state (mkState (account_of w p) (store (after (view w' p) c))) = true
      ∧ history (mkState (account_of w p) (store (after (view w' p) c)))
        = history (view w p)).
    { destruct w, w'; try done.
      - by apply (other_account_frame c (second p) (first p) (objects p)).
      - by apply (other_account_frame c (first p) (second p) (objects p)). }
    destruct Hframe as [Hwf' Hhist'].
    assert (Hwfw : wf_state (view w p) = true) by by destruct w.
    destruct (run_depends_on_self (calls_to w ops) _ (view w p) Hwf' Hwfw
                eq_refl) as (Hself & k & Hk1 & Hk2).
    split; [exact Hself|]. by rewrite Hk1, Hk2, Hhist'.
Qed.

Lemma init_store (number : pystr) (v : pyval) (h : gmap loc obj)
    (st : state) :
  __init__ number v h = Ok st →
  store st = <[fresh (dom h) := OList []]> h
  ∧ _transaction_history (self st) = fresh (dom h).
Proof.
  unfold __init__. case_bool_decide; [discriminate|].
  destruct (_ || _); [discriminate|].
  unfold mbind, result_bind.
  destruct (lt_zero v) as [[|]|]; try discriminate.
  destruct v as [n| |]; try discriminate.
  destruct (Decimal_of_str n) as [d|]; [|discriminate].
  destruct (quantize d CURRENCY_PRECISION) as [b|]; [|discriminate].
  by intros [= <-].
Qed.

(** X11: building a second account leaves the first alone.  When an
    account is constructed in a store that holds an account the class has
    built, the new account starts with an empty history held in a list of
    its own, and the first account keeps its history; the two then
    satisfy the premise of the isolation theorem. *)
Theorem second_account_is_separate (a : BankAccount) (h : gmap loc obj)
    (number : pystr) (v : pyval) (st : state) :
  wf_state (mkState a h) = true →
  __init__ number v h = Ok st →
  wf_accounts (mkAccounts a (self st) (store st)) = true
  ∧ _transaction_history (self st) ≠ _transaction_history a
  ∧ history (mkState a (store st)) = history (mkState a h)
  ∧ history st = [].
Proof.
  intros Hwfa Hinit.
  destruct (init_store _ _ _ _ Hinit) as [Hstore Href].
  apply init_inv in Hinit as (_ & _ & _ & _ & _ & Hwfb & Hhist).
  pose proof Hwfa as Hlog. apply wf_state_spec in Hlog as (items & Hlog).
  simpl in Hlog.
  assert (Hfresh : h !! fresh (dom h) = None)
    by (apply not_elem_of_dom, is_fresh).
  assert (Hne : _transaction_history (self st) ≠ _transaction_history a).
  { rewrite Href. intros Heq. destruct Hlog as [Hl _]. congruence. }
  assert (Hagree : ∀ i o, i ≠ fresh (dom h) → h !! i = Some o →
                          store st !! i = Some o).
  { intros i o Hi Ho. rewrite Hstore. by rewrite lookup_insert_ne. }
  assert (Hread : read_list (store st) (_transaction_history a)
                  = read_list h (_transaction_history a))
    by (by apply (read_list_frame h _ _ (fresh (dom h)) items)).
  assert (Hwfa' : wf_state (mkState a (store st)) = true).
  { apply wf_state_spec. exists items. destruct Hlog as [Hl Hall]. simpl.
    split; [apply Hagree; [|exact Hl]; intros Heq; congruence|].
    rewrite Hstore.
    apply (omap_read_dict_agree h _ items Hall).
    intros i Hi. by apply read_dict_alloc. }
  split; [|split; [exact Hne|split; [exact Hread|exact Hhist]]].
  apply wf_accounts_spec. unfold view. simpl.
  split; [exact Hwfa'|]. split; [by rewrite state_eta|]. done.
Qed.

(** X10 at two accounts and three interleaved calls. *)
Lemma interleaved_calls_are_isolated_witness :
  ∃ st1 st2,
    __init__ (str_of "111111111") (Num (PyInt 1000)) ∅ = Ok st1
    ∧ __init__ (str_of "222222222") (Num (PyInt 2000)) (store st1) = Ok st2
    ∧ account_of First
        (run_on [(First, Deposit (Num (PyInt 100)) "t1");
                 (Second, Withdraw (Num (PyInt 500)) "t2");
                 (First, Withdraw (Num (PyInt 50)) "t3")]
           (mkAccounts (self st1) (self st2) (store st2)))
      = self (run [Deposit (Num (PyInt 100)) "t1";
                   Withdraw (Num (PyInt 50)) "t3"]
                (mkState (self st1) (store st2))).
Proof.
  do 2 eexists. split; [vm_compute; reflexivity|].
  split; [vm_compute; reflexivity|].
  match goal with
  | |- account_of First (run_on ?ops ?p) = _ =>
      destruct (interleaved_calls_are_isolated ops p First) as [Ha _]
  end.
  - vm_compute; reflexivity.
  - exact Ha.
Defined.

(** X11 at two accounts built one after the other. *)
Lemma second_account_is_separate_witness :
  ∃ st1 st2,
    __init__ (str_of "111111111") (Num (PyInt 1000)) ∅ = Ok st1
    ∧ __init__ (str_of "222222222") (Num (PyInt 2000)) (store st1) = Ok st2
    ∧ wf_accounts (mkAccounts (self st1) (self st2) (store st2)) = true.
Proof.
  do 2 eexists. split; [vm_compute; reflexivity|].
  split; [vm_compute; reflexivity|].
  match goal with
  | |- wf_accounts (mkAccounts ?a (self ?st) _) = true =>
      destruct (second_account_is_separate a
                  (<[1%positive := OList []]> ∅)
                  (str_of "222222222") (Num (PyInt 2000)) st) as [Hw _]
  end.
  - vm_compute; reflexivity.
  - vm_compute; reflexivity.
  - exact Hw.
Defined.

(** ** Transfers *)

Lemma accounts_eta (p : accounts) :
  mkAccounts (first p) (second p) (objects p) = p.
Proof. by destruct p. Qed.

Lemma add_validated (b : Decimal) (a : N) :
  is_snan b = false → ∃ b', Dec.add b (Fin false a (-2)) = Ok b'.
Proof. destruct b as [s c e|s|s [|]]; intros Hs; try discriminate; by eexists. Qed.

(** X12: a transfer is all or nothing.  For two accounts the class has
    built, [source.withdraw(amount)] followed by
    [destination.deposit(amount)] either raises in the withdrawal,
    leaving both accounts and the store exactly as they were, or
    completes both calls: the same validated amount is subtracted from
    the source and added to the destination, and each history gains one
    transaction.  The deposit cannot fail once the withdrawal has
    returned.  When both balances are non-negative numbers of cents
    within the precision, the amount is covered by the source and the
    destination stays within the precision, the transfer returns and the
    cents leaving the source are the cents reaching the destination. *)
Theorem transfer_is_all_or_nothing (amount : pyval) (t1 t2 : string)
    (p : accounts) :
  wf_accounts p = true → is_snan (_balance (second p)) = false →
  match (transfer amount t1 t2 p).1 with
  | Raise e =>
      (transfer amount t1 t2 p).2 = p
      ∧ (withdraw amount t1 (view First p)).1 = Raise e
  | Ok _ =>
      ∃ d b1 b2,
        _validate_amount amount = Ok d
        ∧ new_balance (Withdraw amount t1) (_balance (first p)) d = Ok b1
        ∧ new_balance (Deposit amount t2) (_balance (second p)) d = Ok b2
        ∧ _balance (first (transfer amount t1 t2 p).2) = b1
        ∧ _balance (second (transfer amount t1 t2 p).2) = b2
        ∧ history (view First (transfer amount t1 t2 p).2)
          = history (view First p)
            ++ [transaction_of (Withdraw amount t1) d]
        ∧ history (view Second (transfer amount t1 t2 p).2)
          = history (view Second p)
            ++ [transaction_of (Deposit amount t2) d]
  end
  ∧ ∀ (b1 : N) (s2 : bool) (b2 a : N),
      _balance (first p) = Fin false b1 (-2) →
      _balance (second p) = Fin s2 b2 (-2) → s2 = false ∨ b2 = 0%N →
      _validate_amount amount = Ok (Fin false a (-2)) →
      Z.of_N a ≤ Z.of_N b1 < 10 ^ prec →
      Z.of_N b2 + Z.of_N a < 10 ^ prec →
      (transfer amount t1 t2 p).1 = Ok true
      ∧ _balance (first (transfer amount t1 t2 p).2) = Fin false (b1 - a) (-2)
      ∧ _balance (second (transfer amount t1 t2 p).2)
        = Fin false (b2 + a) (-2).
Proof.
  intros Hwf Hsnan. apply wf_accounts_spec in Hwf as (H1 & H2 & Hne).
  assert (Hcases :
    (∃ e, transfer amount t1 t2 p = (Raise e, p)
          ∧ (withdraw amount t1 (view First p)).1 = Raise e)
    ∨ ∃ d b1 b2 p',
        transfer amount t1 t2 p = (Ok true, p')
        ∧ _validate_amount amount = Ok d
        ∧ new_balance (Withdraw amount t1) (_balance (first p)) d = Ok b1
        ∧ new_balance (Deposit amount t2) (_balance (second p)) d = Ok b2
        ∧ _balance (first p') = b1 ∧ _balance (second p') = b2
        ∧ history (view First p')
          = history (view First p) ++ [transaction_of (Withdraw amount t1) d]
        ∧ history (view Second p')
          = history (view Second p) ++ [transaction_of (Deposit amount t2) d]).
  { unfold transfer, call_on. cbn [account_of].
    change (mkState (first p) (objects p)) with (view First p).
    destruct (perform_cases (Withdraw amount t1) (view First p) H1)
      as [(e & Hp & _)
         |(d & b1 & st1 & Hval & Hnew1 & Hp & Hself1 & Hwf1 & Hlog1)].
    { left. exists e. rewrite Hp. simpl. split; [by rewrite accounts_eta|].
      simpl in Hp. by rewrite Hp. }
    right. rewrite Hp. cbn [fst snd second objects first].
    assert (Hst1 : st1 = after (view First p) (Withdraw amount t1))
      by (unfold after; by rewrite Hp).
    destruct (other_account_frame (Withdraw amount t1) (first p) (second p)
                (objects p) H1 H2 Hne) as [HwfB HhistB].
    change (mkState (first p) (objects p)) with (view First p)
      in HwfB, HhistB.
    rewrite <- Hst1 in HwfB, HhistB.
    set (stB := mkState (second p) (store st1)) in *.
    pose proof Hval as Hinv. apply validate_inv in Hinv as (a & Hd & Ha).
    destruct (add_validated (_balance (second p)) a Hsnan) as [b2 Hadd].
    destruct (perform_cases (Deposit amount t2) stB HwfB)
      as [(e & _ & [Hr|(d' & Hd' & Hr)])
         |(d' & b2' & st2 & Hval' & Hnew2 & Hp2 & Hself2 & _ & Hlog2)];
      simpl in *.
    { congruence. }
    { rewrite Hval in Hd'. injection Hd' as <-. subst d. congruence. }
    rewrite Hval in Hval'. injection Hval' as <-.
    rewrite Hp2. simpl.
    exists d, b1, b2', (mkAccounts (self st1) (self st2) (store st2)).
    split; [reflexivity|]. split; [exact Hval|]. split; [exact Hnew1|].
    split; [exact Hnew2|]. split; [by rewrite Hself1|].
    split; [by rewrite Hself2|]. split.
    - assert (Hst2 : st2 = after stB (Deposit amount t2))
        by (unfold after; simpl; by rewrite Hp2).
      destruct (other_account_frame (Deposit amount t2) (second p) (self st1)
                  (store st1) HwfB) as [_ HhistA].
      { by rewrite state_eta. }
      { rewrite Hself1. simpl. done. }
      fold stB in HhistA. rewrite <- Hst2, state_eta in HhistA.
      unfold view. simpl. by rewrite HhistA, Hlog1.
    - unfold view. simpl. rewrite state_eta. by rewrite Hlog2, HhistB. }
  split.
  - destruct Hcases as [(e & -> & Hw)|(d & b1 & b2 & p' & -> & Hrest)]; simpl.
    + done.
    + exists d, b1, b2. exact Hrest.
  - intros b1 s2 b2 a Hb1 Hb2 Hs2 Hval Ha Hfit.
    assert (Ha0 : 0 < Z.of_N a).
    { pose proof Hval as Hinv.
      apply validate_inv in Hinv as (a' & [= <-] & ?). lia. }
    assert (Hs1 : false = false ∨ b1 = 0%N) by by left.
    destruct Hcases
      as [(e & -> & Hw)|(d & c1 & c2 & p' & -> & Hv & Hn1 & Hn2 & <- & <- & _)].
    + exfalso. rewrite withdraw_unfold, Hval in Hw. simpl in Hw.
      rewrite Hb1, gt_scale2 in Hw by exact Hs1.
      destruct (Z.ltb_spec (Z.of_N b1) (Z.of_N a)); [lia|].
      rewrite sub_scale2 in Hw by (done || lia).
      destruct (record_transaction_spec
                  (with_balance (view First p) (Fin false (b1 - a) (-2)))
                  "withdrawal" (Fin false a (-2)) t1 H1) as (st' & Hr & _).
      rewrite Hr in Hw. discriminate.
    + simpl. rewrite Hval in Hv. injection Hv as <-.
      simpl in Hn1, Hn2. rewrite Hb1, gt_scale2 in Hn1 by exact Hs1.
      destruct (Z.ltb_spec (Z.of_N b1) (Z.of_N a)); [lia|].
      rewrite sub_scale2 in Hn1 by (done || lia).
      rewrite Hb2, add_scale2 in Hn2 by (done || lia).
      split; [reflexivity|]. split; congruence.
Qed.

(** X12 at a transfer of 200 from an account holding 1000 to one holding 500. *)
Lemma transfer_is_all_or_nothing_witness :
  ∃ st1 st2,
    __init__ (str_of "123456789") (Num (PyInt 1000)) ∅ = Ok st1
    ∧ __init__ (str_of "987654321") (Num (PyInt 500)) (store st1) = Ok st2
    ∧ (transfer (Num (PyInt 200)) "t1" "t2"
         (mkAccounts (self st1) (self st2) (store st2))).1 = Ok true
    ∧ _balance (first (transfer (Num (PyInt 200)) "t1" "t2"
                         (mkAccounts (self st1) (self st2) (store st2))).2)
      = Fin false 80000 (-2)
    ∧ _balance (second (transfer (Num (PyInt 200)) "t1" "t2"
                          (mkAccounts (self st1) (self st2) (store st2))).2)
      = Fin false 70000 (-2).
Proof.
  do 2 eexists. split; [vm_compute; reflexivity|].
  split; [vm_compute; reflexivity|].
  match goal with
  | |- (transfer ?am ?t1 ?t2 ?p).1 = _ ∧ _ =>
      destruct (transfer_is_all_or_nothing am t1 t2 p) as [_ Hc]
  end.
  - vm_compute; reflexivity.
  - vm_compute; reflexivity.
  - apply (Hc 100000%N false 50000%N 20000%N).
    + vm_compute; reflexivity.
    + vm_compute; reflexivity.
    + by left.
    + vm_compute; reflexivity.
    + vm_compute. split; [discriminate|reflexivity].
    + vm_compute; reflexivity.
Defined.

(** ** Copies of the history *)

(** X7: the list handed out is a snapshot.  After
    [get_transaction_history] has returned on an account the class has
    built, any further deposit and withdraw calls extend the log of the
    account but not the returned list, which still reads as the log at
    the time of the call; and a later call returns yet another list,
    different from the first one and from the list of the account. *)
Theorem history_copy_is_a_snapshot (st : state) (r : loc) (st1 : state)
    (cs : list call) :
  wf_state st = true →
  get_transaction_history st = (Ok r, st1) →
  read_list (store (run cs st1)) r = history st
  ∧ history (run cs st1) = history st ++ successful cs st1
  ∧ ∀ r2 st2,
      get_transaction_history (run cs st1) = (Ok r2, st2) →
      r2 ≠ r ∧ r2 ≠ _transaction_history (self st).
Proof.
  intros Hwf Hget.
  destruct (get_transaction_history_spec st Hwf) as (items & Hlog & Hget').
  rewrite Hget' in Hget. injection Hget as <- <-.
  set (r := fresh (dom (store st))) in *.
  set (st1 := mkState (self st) (<[r := OList items]> (store st))) in *.
  assert (Hr : store st !! r = None) by (apply not_elem_of_dom, is_fresh).
  destruct Hlog as [Hl Hall].
  assert (Hne : r ≠ _transaction_history (self st))
    by (intros Heq; rewrite Heq in Hr; congruence).
  destruct (omap_read_dict_agree (store st) (store st1) items Hall)
    as [Eread Eall].
  { intros i Hi. by apply read_dict_alloc. }
  assert (Hl1 : store st1 !! _transaction_history (self st1)
                = Some (OList items))
    by (simpl; by rewrite lookup_insert_ne).
  assert (Hwf1 : wf_state st1 = true).
  { apply wf_state_spec. exists items. by split. }
  assert (Hcopy : is_log (store st1) r items).
  { split; [apply lookup_insert_eq|exact Eall]. }
  assert (Hhist1 : history st1 = history st).
  { unfold history. rewrite (read_list_log _ _ items Hl1).
    change (_transaction_history (self st1))
      with (_transaction_history (self st)).
    by rewrite (read_list_log _ _ items Hl), Eread. }
  destruct (log_frame (store st1) (store (run cs st1)) r
              (_transaction_history (self st1)) items items Hcopy Hne Hl1)
    as [Hcopy' Hread].
  { intros i o Hi Ho. by apply run_store_frame. }
  split; [|split].
  - rewrite Hread, (read_list_log _ r items) by apply lookup_insert_eq.
    unfold history. by rewrite (read_list_log _ _ items Hl), Eread.
  - by rewrite (history_successful cs st1 Hwf1), Hhist1.
  - intros r2 st2 Hget2.
    destruct (get_transaction_history_spec (run cs st1) (run_wf cs st1 Hwf1))
      as (items2 & [Hl2 _] & Hget2').
    rewrite Hget2' in Hget2. injection Hget2 as <- _.
    pose proof (is_fresh (dom (store (run cs st1)))) as Hf.
    apply not_elem_of_dom in Hf.
    destruct Hcopy' as [Hr' _].
    rewrite (proj2 (run_attributes cs st1 Hwf1)) in Hl2.
    split; intros Heq; rewrite Heq in Hf; simpl in *; congruence.
Qed.

(** X7 at a copy taken before a deposit of 50. *)
Lemma history_copy_is_a_snapshot_witness :
  ∃ st0 r st1,
    __init__ (str_of "123456789") (Num (PyInt 100)) ∅ = Ok st0
    ∧ get_transaction_history st0 = (Ok r, st1)
    ∧ read_list (store (run [Deposit (Num (PyInt 50)) "t1"] st1)) r
      = history st0.
Proof.
  do 3 eexists. split; [vm_compute; reflexivity|].
  split; [vm_compute; reflexivity|].
  match goal with
  | |- read_list (store (run ?cs ?st1)) ?r = history ?st0 =>
      destruct (history_copy_is_a_snapshot st0 r st1 cs) as [Hs _]
  end.
  - vm_compute; reflexivity.
  - vm_compute; reflexivity.
  - exact Hs.
Defined.

(** ** Loops of calls *)

(** X13: deposits in a loop add up.  On an account the class has built
    whose balance is a non-negative number of cents, depositing the same
    validated amount once per clock reading of [ts] leaves the balance at
    the original cents plus [length ts] times the amount, as long as that
    fits the precision, and appends one deposit per call, in order. *)
Theorem repeated_deposits_add_up (st : state) (amount : pyval)
    (ts : list string) (s : bool) (b a : N) :
  wf_state st = true →
  _balance (self st) = Fin s b (-2) → s = false ∨ b = 0%N →
  _validate_amount amount = Ok (Fin false a (-2)) →
  Z.of_N b + Z.of_nat (length ts) * Z.of_N a < 10 ^ prec →
  ∃ s',
    _balance (self (run ((λ t, Deposit amount t) <$> ts) st))
    = Fin s' (b + N.of_nat (length ts) * a) (-2)
    ∧ (s' = false ∨ (b + N.of_nat (length ts) * a)%N = 0%N)
    ∧ history (run ((λ t, Deposit amount t) <$> ts) st)
      = history st
        ++ ((λ t, transaction_of (Deposit amount t) (Fin false a (-2)))
              <$> ts).
Proof.
  intros Hwf Hb Hs Hval.
  pose proof Hval as Hinv. apply validate_inv in Hinv as (a' & [= <-] & Ha).
  induction ts as [|t ts IH] using rev_ind; intros Hfit.
  { exists s. simpl. rewrite N.add_0_r, app_nil_r. split; [exact Hb|].
    split; [|reflexivity]. destruct Hs; [by left|right; lia]. }
  rewrite length_app in Hfit. simpl in Hfit.
  destruct IH as (s' & Hb' & Hs' & Hlog'); [nia|].
  rewrite !fmap_app.
  change ((λ t, Deposit amount t) <$> [t]) with [Deposit amount t].
  rewrite run_snoc, length_app. simpl.
  set (st' := run ((λ t, Deposit amount t) <$> ts) st) in *.
  pose proof (run_wf ((λ t, Deposit amount t) <$> ts) st Hwf) as Hwf'.
  fold st' in Hwf'. unfold after.
  destruct (perform_cases (Deposit amount t) st' Hwf')
    as [(e & _ & [Hr|(d & Hd & Hr)])
       |(d & b1 & st1 & Hd & Hnew & -> & Hself & _ & Hlog1)];
    simpl in *.
  { congruence. }
  { rewrite Hval in Hd. injection Hd as <-.
    rewrite Hb', add_scale2 in Hr by (done || nia). discriminate. }
  rewrite Hval in Hd. injection Hd as <-.
  rewrite Hb', add_scale2 in Hnew by (done || nia). injection Hnew as <-.
  exists false. rewrite Hself. simpl.
  split; [f_equal; lia|]. split; [by left|].
  by rewrite Hlog1, Hlog', <- app_assoc.
Qed.

(** X13 at three deposits of 0.01. *)
Lemma repeated_deposits_add_up_witness :
  ∃ st0,
    __init__ (str_of "123456789") (Num (PyInt 0)) ∅ = Ok st0
    ∧ ∃ s',
        _balance (self (run ((λ t, Deposit (Num (PyFloat (FNum false 1 (-2)))) t)
                               <$> ["t1"; "t2"; "t3"]) st0))
        = Fin s' 3 (-2).
Proof.
  eexists. split; [vm_compute; reflexivity|].
  match goal with
  | |- ∃ s', _balance (self (run (_ <$> ?ts) ?st0)) = _ =>
      destruct (repeated_deposits_add_up st0
                  (Num (PyFloat (FNum false 1 (-2)))) ts false 0 1)
        as (s' & Hb & _)
  end.
  - vm_compute; reflexivity.
  - vm_compute; reflexivity.
  - by left.
  - vm_compute; reflexivity.
  - vm_compute; reflexivity.
  - exists s'. exact Hb.
Defined.

(** ** The scale of the balance *)

(** X14: the balance keeps two decimal places.  For an account built from
    an initial balance other than the float NaN, as long as the rounded
    initial balance plus the deposits in the history stay below 10^26,
    the balance after any sequence of calls is a non-negative decimal
    with exponent -2 and at most 28 digits. *)
Theorem balance_keeps_two_places (number : pystr) (v : pyval)
    (h : gmap loc obj) (st0 : state) (cs : list call) :
  __init__ number v h = Ok st0 →
  v ≠ Num (PyFloat FNan) →
  (default 0 (value (_balance (self st0)))
   + total "deposit" (history (run cs st0)) < inject_Z (10 ^ 26))%Q →
  ∃ (s : bool) (c : N),
    _balance (self (run cs st0)) = Fin s c (-2)
    ∧ (s = false ∨ c = 0%N)
    ∧ Z.of_N c < 10 ^ prec.
Proof.
  intros Hinit Hv Hbound.
  pose proof Hinit as Hi.
  apply init_inv in Hi as (_ & _ & _ & _ & _ & Hwf & Hhist).
  destruct (init_balance_cases _ _ _ _ Hinit)
    as [(s0 & c0 & Hb & Hs0 & Hfit)|[-> _]]; [|done].
  destruct (run_ledger st0 s0 c0 cs Hwf Hhist Hb Hs0)
    as (D & W & HD & HW & HtD & HtW & Hbal).
  assert (Hsg : signed s0 (Z.of_N c0) = Z.of_N c0).
  { destruct Hs0 as [->| ->]; [done|by destruct s0]. }
  rewrite Hb, value_scale2, Hsg in Hbound. simpl default in Hbound.
  rewrite HtD, cents_plus in Hbound.
  assert (Hlt : Z.of_N c0 + D < 10 ^ prec).
  { unfold Qlt in Hbound. simpl in Hbound. unfold prec.
    change (10 ^ 28) with 10000000000000000000000000000. lia. }
  destruct (Hbal Hlt) as (s & Hbs & Hge & Hs).
  exists s, (Z.to_N (Z.of_N c0 + D - W)). split; [exact Hbs|].
  split; [destruct Hs; [by left|right; lia]|]. rewrite Z2N.id by lia. lia.
Qed.

(** X14 at an account opened with 0.1, after a deposit and a failed withdrawal. *)
Lemma balance_keeps_two_places_witness :
  ∃ st0,
    __init__ (str_of "123456789") (Num (PyFloat (FNum false 1 (-1)))) ∅
    = Ok st0
    ∧ ∃ s c,
        _balance (self (run [Deposit (Num (PyFloat (FNum false 2 (-1)))) "t1";
                             Withdraw (Num (PyInt 5)) "t2"] st0))
        = Fin s c (-2).
Proof.
  eexists. split; [vm_compute; reflexivity|].
  match goal with
  | |- ∃ s c, _balance (self (run ?cs ?st0)) = _ =>
      destruct (balance_keeps_two_places (str_of "123456789")
                  (Num (PyFloat (FNum false 1 (-1)))) ∅ st0 cs)
        as (s & c & Hb & _)
  end.
  - vm_compute; reflexivity.
  - discriminate.
  - vm_compute; reflexivity.
  - exists s, c. exact Hb.
Defined.
